(** * AlexNet_From_Scratch: the two normalisation layers

    A shallow embedding of the two classes the notebooks of
    [Inbuilt_Modules_Vs_Custom2] define,

    - [custom_LocalResponseNormalization] (Local Response Normalization.ipynb),
    - [BatchNormalization] (BatchNormalization.ipynb),

    together with the part of NumPy they call.  NumPy is a library the
    notebooks import; its primitives are written here after their documented
    behaviour.  An [ndarray] is what NumPy stores: a shape and a flat,
    row-major buffer.  Every NumPy primitive builds its result by running
    over the indices of the result's shape, and binary operators follow
    NumPy's broadcasting rule, so that a shape mismatch is an error value
    and a compatible mismatch silently stretches the operands, as it does in
    the notebooks.

    Scalars are kept abstract (a type [F] with the arithmetic the code uses):
    every structural statement below holds for any arithmetic, IEEE doubles
    included.  The statements that need algebra (positivity of denominators,
    simplifying [momentum * 0]) are proved over the real numbers. *)

From Stdlib Require Import List Arith ZArith Lia Bool Reals Lra.
Import ListNotations.

Set Implicit Arguments.

(** ** Scalars *)

(** The arithmetic of array elements and of Python floats.  [of_count] is the
    conversion of an element count to a float that [np.mean] and [np.var]
    divide by; [fpow] is [**]; [fsqrt] is [np.sqrt]. *)
Class Scalar (F : Type) : Type := {
  fzero : F;
  fone : F;
  fadd : F -> F -> F;
  fsub : F -> F -> F;
  fmul : F -> F -> F;
  fdiv : F -> F -> F;
  fsqrt : F -> F;
  fpow : F -> F -> F;
  of_count : nat -> F
}.

(** ** Exceptions *)

Inductive error : Type :=
| ValueError   (* unpacking a shape of the wrong length, broadcasting failure *)
| TypeError    (* arithmetic on [None] *)
| AxisError    (* [axis=0] of a 0-dimensional array *)
| IndexError.  (* integer index out of bounds *)

Inductive result (A : Type) : Type :=
| Ok (a : A)
| Err (e : error).

Arguments Ok {A} a.
Arguments Err {A} e.

Definition rbind {A B : Type} (r : result A) (k : A -> result B) : result B :=
  match r with
  | Ok a => k a
  | Err e => Err e
  end.

Declare Scope result_scope.
Delimit Scope result_scope with result.
Notation "'let?' x ':=' r 'in' k" := (rbind r (fun x => k))
  (at level 10, x name, r at level 100, k at level 200) : result_scope.

(** A [for i in range(n)] loop whose body may raise: the loop variable is
    threaded through the iterations and the first exception ends the loop. *)
Definition for_range {A : Type} (n : nat) (body : nat -> A -> result A) (init : A)
  : result A :=
  fold_left (fun acc i => rbind acc (body i)) (seq 0 n) (Ok init).

(** ** Shapes and row-major indexing *)

Fixpoint size (s : list nat) : nat :=
  match s with
  | [] => 1
  | d :: s' => d * size s'
  end.

(** Offset of a multi-index in the flat buffer. *)
Fixpoint ravel (s idx : list nat) : nat :=
  match s, idx with
  | _ :: s', i :: idx' => i * size s' + ravel s' idx'
  | _, _ => 0
  end.

(** [idx] is a valid multi-index of an array of shape [s]. *)
Fixpoint in_range (s idx : list nat) : Prop :=
  match s, idx with
  | [], [] => True
  | d :: s', i :: idx' => i < d /\ in_range s' idx'
  | _, _ => False
  end.

(** All multi-indices of a shape, in row-major order. *)
Fixpoint indices (s : list nat) : list (list nat) :=
  match s with
  | [] => [[]]
  | d :: s' => flat_map (fun i => map (cons i) (indices s')) (seq 0 d)
  end.

(** *** NumPy broadcasting of two shapes

    Shapes are aligned at their last axis; two aligned extents are
    compatible when they are equal or one of them is 1. *)
Fixpoint bshape_rev (a b : list nat) : option (list nat) :=
  match a, b with
  | [], _ => Some b
  | _, [] => Some a
  | x :: a', y :: b' =>
      match bshape_rev a' b' with
      | None => None
      | Some r =>
          if x =? y then Some (x :: r)
          else if x =? 1 then Some (y :: r)
          else if y =? 1 then Some (x :: r)
          else None
      end
  end.

Definition bshape (a b : list nat) : option (list nat) :=
  option_map (@rev nat) (bshape_rev (rev a) (rev b)).

(** The index at which an operand of shape [s] is read when the result is
    read at [idx]: leading axes the operand lacks are dropped and stretched
    axes (extent 1) are read at 0. *)
Fixpoint bidx_aligned (s idx : list nat) : list nat :=
  match s, idx with
  | d :: s', i :: idx' => (if d =? 1 then 0 else i) :: bidx_aligned s' idx'
  | _, _ => []
  end.

Definition bidx (s idx : list nat) : list nat :=
  bidx_aligned s (skipn (length idx - length s) idx).

(** Python's adjustment of a slice [start:stop] (step 1) to a sequence of
    length [len]: negative bounds count from the end, then both bounds are
    clipped to [0, len].  Returns the first index and the number of
    elements. *)
Definition slice_adjust (start stop : Z) (len : nat) : nat * nat :=
  let l := Z.of_nat len in
  let clip (i : Z) : Z :=
    if (i <? 0)%Z then (if (i + l <? 0)%Z then 0%Z else (i + l)%Z)
    else if (l <=? i)%Z then l else i in
  let a := clip start in
  let b := clip stop in
  (Z.to_nat a, Z.to_nat (Z.max 0 (b - a))).

(** ** N-dimensional arrays *)

Section NumPy.

Context {F : Type} `{Scalar F}.

Record ndarray : Type := mk_ndarray {
  shape : list nat;
  data : list F
}.

(** The element at a multi-index.  Every operation below reads its operands
    inside their shapes and returns a well-formed array. *)
Definition get (a : ndarray) (idx : list nat) : F :=
  nth (ravel (shape a) idx) (data a) fzero.

(** The buffer holds one element for each index of the shape. *)
Definition well_formed (a : ndarray) : Prop := length (data a) = size (shape a).

(** The array of shape [s] whose element at [idx] is [f idx]. *)
Definition tabulate (s : list nat) (f : list nat -> F) : ndarray :=
  mk_ndarray s (map f (indices s)).

Definition np_full (s : list nat) (v : F) : ndarray :=
  mk_ndarray s (repeat v (size s)).

Definition np_zeros (s : list nat) : ndarray := np_full s fzero.
Definition np_ones (s : list nat) : ndarray := np_full s fone.
Definition np_zeros_like (a : ndarray) : ndarray := np_zeros (shape a).

Definition np_map (f : F -> F) (a : ndarray) : ndarray :=
  tabulate (shape a) (fun idx => f (get a idx)).

Definition np_square (a : ndarray) : ndarray := np_map (fun x => fmul x x) a.
Definition np_sqrt (a : ndarray) : ndarray := np_map fsqrt a.

(** A Python float on the left or on the right of an array operand. *)
Definition scalar_l (op : F -> F -> F) (x : F) (a : ndarray) : ndarray :=
  np_map (op x) a.
Definition scalar_r (op : F -> F -> F) (a : ndarray) (x : F) : ndarray :=
  np_map (fun y => op y x) a.

(** An element-wise binary operator on two arrays, with broadcasting. *)
Definition broadcast (op : F -> F -> F) (a b : ndarray) : result ndarray :=
  match bshape (shape a) (shape b) with
  | Some s =>
      Ok (tabulate s (fun idx =>
            op (get a (bidx (shape a) idx)) (get b (bidx (shape b) idx))))
  | None => Err ValueError
  end.

(** The sum of a list of elements, accumulated from left to right starting
    at zero.  The code and the formulas of the specification share this
    sum, so that no statement depends on the order of accumulation. *)
Definition fsum (l : list F) : F := fold_left fadd l fzero.

(** [np.sum(a, axis=0)] *)
Definition np_sum0 (a : ndarray) : result ndarray :=
  match shape a with
  | [] => Err AxisError
  | d :: s' =>
      Ok (tabulate s' (fun idx => fsum (map (fun i => get a (i :: idx)) (seq 0 d))))
  end.

(** [np.mean(a, axis=0)]: the sum along the axis divided by the count. *)
Definition np_mean0 (a : ndarray) : result ndarray :=
  match shape a with
  | [] => Err AxisError
  | d :: s' =>
      Ok (tabulate s' (fun idx =>
            fdiv (fsum (map (fun i => get a (i :: idx)) (seq 0 d))) (of_count d)))
  end.

(** [np.var(a, axis=0)] with the default [ddof=0]: the mean along the axis
    of the squared deviations from the mean, the divisor being the count. *)
Definition np_var0 (a : ndarray) : result ndarray :=
  match shape a with
  | [] => Err AxisError
  | d :: s' =>
      Ok (tabulate s' (fun idx =>
            let m := fdiv (fsum (map (fun i => get a (i :: idx)) (seq 0 d))) (of_count d) in
            fdiv (fsum (map (fun i => let x := fsub (get a (i :: idx)) m in fmul x x)
                            (seq 0 d)))
                 (of_count d)))
  end.

(** [a[n, start:stop, :, :]] on a 4-dimensional array. *)
Definition getitem_slice (a : ndarray) (n : nat) (start stop : Z) : result ndarray :=
  match shape a with
  | [N; C; H; W] =>
      if n <? N then
        let '(s0, cnt) := slice_adjust start stop C in
        Ok (tabulate [cnt; H; W] (fun idx =>
              match idx with
              | [k; h; w] => get a [n; s0 + k; h; w]
              | _ => fzero
              end))
      else Err IndexError
  | _ => Err IndexError
  end.

(** [a[n, c, :, :]] on a 4-dimensional array. *)
Definition getitem_plane (a : ndarray) (n c : nat) : result ndarray :=
  match shape a with
  | [N; C; H; W] =>
      if (n <? N) && (c <? C) then
        Ok (tabulate [H; W] (fun idx =>
              match idx with
              | [h; w] => get a [n; c; h; w]
              | _ => fzero
              end))
      else Err IndexError
  | _ => Err IndexError
  end.

(** [a[n, c, :, :] = v] on a 4-dimensional array: [v] is broadcast to the
    plane; the other planes are kept. *)
Definition setitem_plane (a : ndarray) (n c : nat) (v : ndarray) : result ndarray :=
  match shape a with
  | [N; C; H; W] =>
      if (n <? N) && (c <? C) then
        match bshape (shape v) [H; W] with
        | Some [H'; W'] =>
            if (H' =? H) && (W' =? W) then
              Ok (tabulate [N; C; H; W] (fun idx =>
                    match idx with
                    | [n'; c'; h; w] =>
                        if (n' =? n) && (c' =? c)
                        then get v (bidx (shape v) [h; w])
                        else get a idx
                    | _ => fzero
                    end))
            else Err ValueError
        | _ => Err ValueError
        end
      else Err IndexError
  | _ => Err IndexError
  end.

End NumPy.

Arguments ndarray F : clear implicits.

(** ** Local Response Normalization.ipynb: [custom_LocalResponseNormalization] *)

Module custom_LocalResponseNormalization.
Section Defs.

Context {F : Type} `{Scalar F}.

(** The attributes [__init__] stores. *)
Record t : Type := init {
  depth_radius : Z;
  bias : F;
  alpha : F;
  beta : F
}.

(** [start] and [end] of the loop body, for channel [c] of [C]. *)
Definition window_start (self : t) (c : nat) : Z :=
  Z.max 0 (Z.of_nat c - depth_radius self / 2).

Definition window_end (self : t) (C c : nat) : Z :=
  Z.min (Z.of_nat C) (Z.of_nat c + depth_radius self / 2 + 1).

(** The channels the slice [squared_input[n, start:end, :, :]] selects. *)
Definition sliced_channels (self : t) (C c : nat) : list nat :=
  let '(first, count) := slice_adjust (window_start self c) (window_end self C c) C in
  seq first count.

(** [local_sum] and [scale] of the loop body. *)
Definition local_scale (self : t) (squared_input : ndarray F) (C n c : nat)
  : result (ndarray F) :=
  (let? region := getitem_slice squared_input n (window_start self c) (window_end self C c) in
   let? local_sum := np_sum0 region in
   Ok (scalar_l fadd (bias self) (scalar_l fmul (alpha self) local_sum)))%result.

(** The loop body: the new value of [output] after the assignment to
    [output[n, c, :, :]]. *)
Definition normalize_channel (self : t) (X squared_input : ndarray F) (C n c : nat)
    (output : ndarray F) : result (ndarray F) :=
  (let? scale := local_scale self squared_input C n c in
   let? plane := getitem_plane X n c in
   let? v := broadcast fdiv plane (scalar_r fpow scale (beta self)) in
   setitem_plane output n c v)%result.

Definition forward (self : t) (X : ndarray F) : result (ndarray F) :=
  match shape X with
  | [N; C; H; W] =>
      let squared_input := np_square X in
      let output := np_zeros_like X in
      for_range N (fun n output =>
        for_range C (fun c output =>
          normalize_channel self X squared_input C n c output) output) output
  | _ => Err ValueError
  end.

End Defs.
Arguments t F : clear implicits.
End custom_LocalResponseNormalization.

(** ** BatchNormalization.ipynb: [BatchNormalization] *)

Module BatchNormalization.
Section Defs.

Context {F : Type} `{Scalar F}.

(** The attributes of an instance; [None] is Python's [None]. *)
Record t : Type := mk {
  epsilon : F;
  momentum : F;
  gamma : option (ndarray F);
  beta : option (ndarray F);
  running_mean : option (ndarray F);
  running_var : option (ndarray F)
}.

(** [__init__] *)
Definition init (epsilon momentum : F) : t :=
  mk epsilon momentum None None None None.

(** Methods run on the instance and may raise after having assigned to it:
    a computation returns the instance as the call leaves it, with the
    value or the exception. *)
Definition M (A : Type) : Type := t -> t * result A.

Definition ret {A : Type} (a : A) : M A := fun self => (self, Ok a).

Definition bind {A B : Type} (m : M A) (k : A -> M B) : M B :=
  fun self =>
    match m self with
    | (self', Ok a) => k a self'
    | (self', Err e) => (self', Err e)
    end.

Definition lift {A : Type} (r : result A) : M A := fun self => (self, r).

(** Reading an attribute. *)
Definition attr {A : Type} (f : t -> A) : M A := fun self => (self, Ok (f self)).

(** Reading an attribute as an operand of arithmetic: [None] raises a
    [TypeError].  (Against an array without elements NumPy raises it only
    at the next operation on the [None] attribute of the same statement;
    the call raises all the same, having assigned nothing.) *)
Definition operand (f : t -> option (ndarray F)) : M (ndarray F) :=
  fun self =>
    match f self with
    | Some a => (self, Ok a)
    | None => (self, Err TypeError)
    end.

Definition assign (f : t -> t) : M unit := fun self => (f self, Ok tt).

Definition set_running_mean (a : ndarray F) (self : t) : t :=
  mk (epsilon self) (momentum self) (gamma self) (beta self) (Some a) (running_var self).

Definition set_running_var (a : ndarray F) (self : t) : t :=
  mk (epsilon self) (momentum self) (gamma self) (beta self) (running_mean self) (Some a).

(** [initialize_params] *)
Definition initialize_params (shape : list nat) (self : t) : t :=
  mk (epsilon self) (momentum self)
     (Some (np_ones shape)) (Some (np_zeros shape))
     (Some (np_zeros shape)) (Some (np_ones shape)).

(** The guard of the lazy initialisation:
    [self.gamma is None or self.beta is None]. *)
Definition needs_init (self : t) : bool :=
  match gamma self, beta self with
  | Some _, Some _ => false
  | _, _ => true
  end.

Declare Scope bn_scope.
Delimit Scope bn_scope with bn.
Notation "x <- m ;; k" := (bind m (fun x => k))
  (at level 61, m at next level, right associativity) : bn_scope.
Notation "m ;;; k" := (bind m (fun _ => k))
  (at level 61, right associativity) : bn_scope.

Local Open Scope bn_scope.

(** [(X - mean) / np.sqrt(var + self.epsilon)] *)
Definition normalized (X mean var : ndarray F) (eps : F) : result (ndarray F) :=
  (let? centred := broadcast fsub X mean in
   broadcast fdiv centred (np_sqrt (scalar_r fadd var eps)))%result.

(** [self.momentum * running + (1 - self.momentum) * batch] *)
Definition moving_average (mom : F) (running batch : ndarray F) : result (ndarray F) :=
  broadcast fadd (scalar_l fmul mom running) (scalar_l fmul (fsub fone mom) batch).

(** [forward] *)
Definition forward (X : ndarray F) (training : bool) : M (ndarray F) :=
  (fun self =>
     if needs_init self
     then (initialize_params (tl (shape X)) self, Ok tt)
     else (self, Ok tt)) ;;;
  eps <- attr epsilon ;;
  mom <- attr momentum ;;
  X_norm <-
    (if training then
       batch_mean <- lift (np_mean0 X) ;;
       batch_var <- lift (np_var0 X) ;;
       X_norm <- lift (normalized X batch_mean batch_var eps) ;;
       rm <- operand running_mean ;;
       rm' <- lift (moving_average mom rm batch_mean) ;;
       assign (set_running_mean rm') ;;;
       rv <- operand running_var ;;
       rv' <- lift (moving_average mom rv batch_var) ;;
       assign (set_running_var rv') ;;;
       ret X_norm
     else
       rm <- operand running_mean ;;
       centred <- lift (broadcast fsub X rm) ;;
       rv <- operand running_var ;;
       lift (broadcast fdiv centred (np_sqrt (scalar_r fadd rv eps)))) ;;
  g <- operand gamma ;;
  scaled <- lift (broadcast fmul g X_norm) ;;
  b <- operand beta ;;
  lift (broadcast fadd scaled b).

(** [update_params]; its arguments are arrays. *)
Definition update_params (g b : ndarray F) (self : t) : t :=
  mk (epsilon self) (momentum self) (Some g) (Some b)
     (running_mean self) (running_var self).

(** *** Histories of calls on one instance *)

Inductive call : Type :=
| Forward (X : ndarray F) (training : bool)
| UpdateParams (g b : ndarray F).

(** The instance after a call (an exception leaves it as it was when the
    exception was raised). *)
Definition step (self : t) (c : call) : t :=
  match c with
  | Forward X training => fst (forward X training self)
  | UpdateParams g b => update_params g b self
  end.

Definition run (self : t) (cs : list call) : t := fold_left step cs self.

(** An instance whose four arrays are allocated with the feature shape [fs]. *)
Definition initialized (fs : list nat) (self : t) : Prop :=
  (exists g, gamma self = Some g /\ shape g = fs) /\
  (exists b, beta self = Some b /\ shape b = fs) /\
  (exists m, running_mean self = Some m /\ shape m = fs) /\
  (exists v, running_var self = Some v /\ shape v = fs).

End Defs.
Arguments t F : clear implicits.
Arguments call F : clear implicits.
End BatchNormalization.

(** ** Real arithmetic as the scalars *)

(** The exact arithmetic that the floats of the code approximate.  Its
    division, root and power are total functions, where the floats give
    NaN, infinities or an underflow to 0.0: a statement over the real
    numbers carries the hypotheses (a batch with an entry, epsilon > 0, a
    positive base) that keep every division, root and power it relies on
    inside its domain. *)
#[export] Instance Scalar_R : Scalar R := {
  fzero := 0%R;
  fone := 1%R;
  fadd := Rplus;
  fsub := Rminus;
  fmul := Rmult;
  fdiv := Rdiv;
  fsqrt := sqrt;
  fpow := Rpower;
  of_count := INR
}.

(** ** Example inputs *)

(** The configuration of the notebook: [custom_LocalResponseNormalization()]. *)
Definition lrn_default : custom_LocalResponseNormalization.t R :=
  custom_LocalResponseNormalization.init 5%Z 1%R (1 / 10000)%R (3 / 4)%R.

(** The same with [depth_radius=-1]. *)
Definition lrn_negative : custom_LocalResponseNormalization.t R :=
  custom_LocalResponseNormalization.init (-1)%Z 1%R (1 / 10000)%R (3 / 4)%R.

(** One image of three channels and one pixel. *)
Definition X_1311 : ndarray R := mk_ndarray [1; 3; 1; 1] [1; 2; 3]%R.

(** [BatchNormalization()] *)
Definition bn_new : BatchNormalization.t R :=
  BatchNormalization.init (1 / 100000)%R (9 / 10)%R.

(** An instance initialized for the feature shape (1,). *)
Definition bn_one : BatchNormalization.t R :=
  BatchNormalization.initialize_params [1] bn_new.

(** A batch of two rows of one feature, and one of two rows of three. *)
Definition X_21 : ndarray R := mk_ndarray [2; 1] [1; 3]%R.
Definition X_23 : ndarray R := mk_ndarray [2; 3] [1; 2; 3; 4; 5; 6]%R.

Definition X_spread : ndarray R := mk_ndarray [2; 1] [2; -2]%R.

(** ** Calls that agree with a feature shape *)

(** A call whose arrays have the feature shape [fs]: a [forward] on a batch
    of entries of that shape, an [update_params] with a scale and a shift
    of that shape. *)
Definition call_fits {F : Type} `{Scalar F} (fs : list nat)
    (c : BatchNormalization.call F) : Prop :=
  match c with
  | BatchNormalization.Forward X _ => exists N, shape X = N :: fs
  | BatchNormalization.UpdateParams g b => shape g = fs /\ shape b = fs
  end.

(** Example inputs: a scale of shape (5,), which cannot be broadcast against
    a batch of shape (2, 3), and one sample of three features. *)
Definition g_five : ndarray R := mk_ndarray [5] [1; 1; 1; 1; 1]%R.
Definition X_13 : ndarray R := mk_ndarray [1; 3] [7; 8; 9]%R.
Definition bn_three : BatchNormalization.t R :=
  BatchNormalization.initialize_params [3] bn_new.

(** A configuration of radius 1; a batch of two images whose second image
    is the image of [X_1311]; an array without axes; a scale and a shift of
    shape (1,). *)
Definition lrn_radius_one : custom_LocalResponseNormalization.t R :=
  custom_LocalResponseNormalization.init 1%Z 1%R (1 / 10000)%R (3 / 4)%R.
Definition X_2311 : ndarray R := mk_ndarray [2; 3; 1; 1] [4; 5; 6; 1; 2; 3]%R.
Definition X_scalar : ndarray R := mk_ndarray [] [5]%R.
Definition g_two : ndarray R := mk_ndarray [1] [2]%R.
Definition s_three : ndarray R := mk_ndarray [1] [3]%R.

(** The image of [X_1311] with opposite values, and the batch [X_21] with
    10 added to every entry. *)
Definition X_1311_opposite : ndarray R := mk_ndarray [1; 3; 1; 1] [-1; -2; -3]%R.
Definition X_21_shifted : ndarray R := mk_ndarray [2; 1] [11; 13]%R.

(** ** What a call may leave in a running statistic *)

(** The attribute after a call is the one found before it, or the moving
    average of the array found before it with the batch statistic of the
    call: nothing else, and in particular not a fresh array of zeros or
    ones. *)
Definition kept_or_averaged {F : Type} `{Scalar F} (mom : F)
    (before after : option (ndarray F)) (batch : result (ndarray F)) : Prop :=
  after = before \/
  exists old stat new,
    before = Some old /\ batch = Ok stat /\
    BatchNormalization.moving_average mom old stat = Ok new /\
    after = Some new.

(** The scale and the shift that the calls of [update_params] of a history
    leave, given those found before it: the arguments of the last such
    call. *)
Definition last_params {F : Type} `{Scalar F} (g b : ndarray F)
    (cs : list (BatchNormalization.call F)) : ndarray F * ndarray F :=
  fold_left (fun p c =>
               match c with
               | BatchNormalization.UpdateParams g' b' => (g', b')
               | BatchNormalization.Forward _ _ => p
               end) cs (g, b).


(** Example inputs: batches of shapes (2, 2) and (5, 3), and an instance
    initialized for the feature shape (2, 3). *)
Definition X_22 : ndarray R := mk_ndarray [2; 2] [1; 2; 3; 4]%R.
Definition X_53 : ndarray R :=
  mk_ndarray [5; 3] [1; 2; 3; 4; 5; 6; 7; 8; 9; 10; 11; 12; 13; 14; 15]%R.
Definition bn_two_three : BatchNormalization.t R :=
  BatchNormalization.initialize_params [2; 3] bn_new.

(** ** The formulas of the specification

    These follow the words of the specification; the theorems compare them
    with what the code above computes. *)

(** The channels [i] with [max(0, c - r//2) <= i < min(C, c + r//2 + 1)]. *)
Definition channel_window (radius : Z) (C c : nat) : list nat :=
  let lo := Z.max 0 (Z.of_nat c - radius / 2) in
  let hi := Z.min (Z.of_nat C) (Z.of_nat c + radius / 2 + 1) in
  seq (Z.to_nat lo) (Z.to_nat (hi - lo)).

Section Formulas.

Context {F : Type} `{Scalar F}.

(** The sum of [X[n, i, h, w]^2] over the channels [i] of a list. *)
Definition sum_of_squares (X : ndarray F) (n h w : nat) (chans : list nat) : F :=
  fsum (map (fun i => fmul (get X [n; i; h; w]) (get X [n; i; h; w])) chans).

(** [X[n,c,h,w] / (bias + alpha * sum)^beta] *)
Definition lrn_formula (bias alpha beta : F) (X : ndarray F) (n c h w : nat)
    (chans : list nat) : F :=
  fdiv (get X [n; c; h; w])
       (fpow (fadd bias (fmul alpha (sum_of_squares X n h w chans))) beta).

(** The mean over the batch axis of the [N] entries at feature index [idx]. *)
Definition batch_mean_at (X : ndarray F) (N : nat) (idx : list nat) : F :=
  fdiv (fsum (map (fun i => get X (i :: idx)) (seq 0 N))) (of_count N).

(** The population variance over the batch axis: the divisor is [N]. *)
Definition batch_var_at (X : ndarray F) (N : nat) (idx : list nat) : F :=
  fdiv (fsum (map (fun i =>
                     let x := fsub (get X (i :: idx)) (batch_mean_at X N idx) in
                     fmul x x) (seq 0 N)))
       (of_count N).

(** [scale * ((x - mean) / sqrt(var + epsilon)) + shift] *)
Definition bn_formula (scale shift x mean var eps : F) : F :=
  fadd (fmul scale (fdiv (fsub x mean) (fsqrt (fadd var eps)))) shift.

End Formulas.

(** * Properties *)

(** ** Row-major indexing *)

Lemma length_indices (s : list nat) : length (indices s) = size s.
Proof.
  induction s as [|d s IH]; simpl; [reflexivity|].
  generalize 0 as a.
  induction d as [|d IHd]; intros a; simpl; [reflexivity|].
  rewrite length_app, length_map, IHd, IH. reflexivity.
Qed.

Lemma ravel_lt (s idx : list nat) : in_range s idx -> ravel s idx < size s.
Proof.
  revert idx; induction s as [|d s IH]; intros [|i idx]; simpl; try tauto; try lia.
  intros [Hi Hr]. specialize (IH _ Hr). nia.
Qed.

(** Reading a concatenation of equally long chunks. *)
Lemma nth_flat_map_chunks (A : Type) (g : nat -> list A) (m : nat) (dflt : A) :
  (forall j, length (g j) = m) ->
  forall d a i k, i < d -> k < m ->
    nth (i * m + k) (flat_map g (seq a d)) dflt = nth k (g (a + i)) dflt.
Proof.
  intros Hlen. induction d as [|d IH]; intros a i k Hi Hk; [lia|].
  simpl. destruct i as [|i].
  - simpl. rewrite app_nth1 by (rewrite Hlen; assumption).
    rewrite Nat.add_0_r. reflexivity.
  - rewrite app_nth2 by (rewrite Hlen; simpl; lia).
    rewrite Hlen. replace (S i * m + k - m) with (i * m + k) by (simpl; lia).
    rewrite IH by lia. f_equal. f_equal. lia.
Qed.

Lemma nth_indices (s idx dflt : list nat) :
  in_range s idx -> nth (ravel s idx) (indices s) dflt = idx.
Proof.
  revert idx; induction s as [|d s IH]; intros [|i idx]; simpl; try tauto.
  intros [Hi Hr].
  rewrite nth_flat_map_chunks with (m := size s).
  - simpl. rewrite nth_indep with (d' := i :: dflt).
    + rewrite map_nth. rewrite IH by assumption. reflexivity.
    + rewrite length_map, length_indices. apply ravel_lt; assumption.
  - intros j. rewrite length_map. apply length_indices.
  - assumption.
  - apply ravel_lt; assumption.
Qed.

Lemma in_range_length (s idx : list nat) : in_range s idx -> length idx = length s.
Proof.
  revert idx; induction s as [|d s IH]; intros [|i idx]; simpl; try tauto.
  intros [_ Hr]. f_equal. apply IH; assumption.
Qed.

Section NumPyFacts.

Context {F : Type} `{Scalar F}.

Lemma shape_tabulate (s : list nat) (f : list nat -> F) : shape (tabulate s f) = s.
Proof. reflexivity. Qed.

Lemma get_tabulate (s : list nat) (f : list nat -> F) (idx : list nat) :
  in_range s idx -> get (tabulate s f) idx = f idx.
Proof.
  intros Hr. unfold get, tabulate; simpl.
  rewrite nth_indep with (d' := f []).
  - rewrite map_nth. rewrite nth_indices by assumption. reflexivity.
  - rewrite length_map, length_indices. apply ravel_lt; assumption.
Qed.

Lemma get_np_full (s : list nat) (v : F) (idx : list nat) :
  in_range s idx -> get (np_full s v) idx = v.
Proof.
  intros Hr. unfold get, np_full; simpl.
  apply nth_repeat_lt. apply ravel_lt; assumption.
Qed.

Lemma shape_np_map (f : F -> F) (a : ndarray F) : shape (np_map f a) = shape a.
Proof. reflexivity. Qed.

Lemma get_np_map (f : F -> F) (a : ndarray F) (idx : list nat) :
  in_range (shape a) idx -> get (np_map f a) idx = f (get a idx).
Proof. intros Hr. unfold np_map. rewrite get_tabulate by assumption. reflexivity. Qed.

End NumPyFacts.

(** ** Broadcasting *)

Lemma bshape_rev_refl (a : list nat) : bshape_rev a a = Some a.
Proof.
  induction a as [|x a IH]; simpl; [reflexivity|].
  rewrite IH, Nat.eqb_refl. reflexivity.
Qed.

Lemma bshape_rev_app_l (a : list nat) (n : nat) : bshape_rev (a ++ [n]) a = Some (a ++ [n]).
Proof.
  induction a as [|x a IH]; simpl; [reflexivity|].
  rewrite IH, Nat.eqb_refl. reflexivity.
Qed.

Lemma bshape_rev_app_r (a : list nat) (n : nat) : bshape_rev a (a ++ [n]) = Some (a ++ [n]).
Proof.
  induction a as [|x a IH]; simpl; [reflexivity|].
  rewrite IH, Nat.eqb_refl. reflexivity.
Qed.

Lemma bshape_refl (s : list nat) : bshape s s = Some s.
Proof. unfold bshape. rewrite bshape_rev_refl. simpl. rewrite rev_involutive. reflexivity. Qed.

Lemma bshape_batch_l (n : nat) (s : list nat) : bshape (n :: s) s = Some (n :: s).
Proof.
  unfold bshape. simpl rev. rewrite bshape_rev_app_l. simpl.
  rewrite rev_app_distr, rev_involutive. reflexivity.
Qed.

Lemma bshape_batch_r (n : nat) (s : list nat) : bshape s (n :: s) = Some (n :: s).
Proof.
  unfold bshape. simpl rev. rewrite bshape_rev_app_r. simpl.
  rewrite rev_app_distr, rev_involutive. reflexivity.
Qed.

(** An incompatibility between two shapes survives a further leading axis
    on either side. *)
Lemma bshape_rev_none_app (a b : list nat) (n : nat) :
  bshape_rev a b = None ->
  bshape_rev (a ++ [n]) b = None /\ bshape_rev a (b ++ [n]) = None.
Proof.
  revert b; induction a as [|x a IH]; intros [|y b]; simpl; try discriminate.
  intros Hn. destruct (bshape_rev a b) as [r|] eqn:E.
  - destruct (bshape_rev (a ++ [n]) b) as [r1|], (bshape_rev a (b ++ [n])) as [r2|];
      destruct (x =? y), (x =? 1), (y =? 1); try discriminate; auto.
  - destruct (IH _ E) as [-> ->]. auto.
Qed.

Lemma bshape_none_batch (a b : list nat) (n : nat) :
  bshape a b = None -> bshape (n :: a) b = None /\ bshape a (n :: b) = None.
Proof.
  unfold bshape. simpl rev. intros Hn.
  destruct (bshape_rev (rev a) (rev b)) eqn:E; [discriminate|].
  destruct (bshape_rev_none_app _ _ n E) as [-> ->]. auto.
Qed.

Lemma bidx_aligned_same (s idx : list nat) : in_range s idx -> bidx_aligned s idx = idx.
Proof.
  revert idx; induction s as [|d s IH]; intros [|i idx]; simpl; try tauto.
  intros [Hi Hr]. rewrite IH by assumption.
  destruct (Nat.eqb_spec d 1); [f_equal; lia | reflexivity].
Qed.

Lemma bidx_same (s idx : list nat) : in_range s idx -> bidx s idx = idx.
Proof.
  intros Hr. unfold bidx. rewrite (in_range_length _ _ Hr), Nat.sub_diag. simpl.
  apply bidx_aligned_same; assumption.
Qed.

Lemma bidx_batch (s idx : list nat) (i : nat) : in_range s idx -> bidx s (i :: idx) = idx.
Proof.
  intros Hr. unfold bidx. simpl length. rewrite (in_range_length _ _ Hr).
  replace (S (length s) - length s) with 1 by lia. simpl.
  apply bidx_aligned_same; assumption.
Qed.

Section BroadcastFacts.

Context {F : Type} `{Scalar F}.

Lemma broadcast_same (op : F -> F -> F) (a b : ndarray F) :
  shape b = shape a ->
  exists r, broadcast op a b = Ok r /\ shape r = shape a /\
    forall idx, in_range (shape a) idx -> get r idx = op (get a idx) (get b idx).
Proof.
  intros Hs. unfold broadcast. rewrite Hs, bshape_refl.
  eexists; split; [reflexivity|]. split; [reflexivity|].
  intros idx Hr. rewrite get_tabulate by assumption.
  rewrite bidx_same by assumption. reflexivity.
Qed.

(** A batch against one array of the feature shape. *)
Lemma broadcast_batch_l (op : F -> F -> F) (a b : ndarray F) (n : nat) (fs : list nat) :
  shape a = n :: fs -> shape b = fs ->
  exists r, broadcast op a b = Ok r /\ shape r = n :: fs /\
    forall i idx, i < n -> in_range fs idx ->
      get r (i :: idx) = op (get a (i :: idx)) (get b idx).
Proof.
  intros Ha Hb. unfold broadcast. rewrite Ha, Hb, bshape_batch_l.
  eexists; split; [reflexivity|]. split; [reflexivity|].
  intros i idx Hi Hr. rewrite get_tabulate by (simpl; auto).
  rewrite bidx_same by (simpl; auto). rewrite bidx_batch by assumption. reflexivity.
Qed.

Lemma broadcast_batch_r (op : F -> F -> F) (a b : ndarray F) (n : nat) (fs : list nat) :
  shape a = fs -> shape b = n :: fs ->
  exists r, broadcast op a b = Ok r /\ shape r = n :: fs /\
    forall i idx, i < n -> in_range fs idx ->
      get r (i :: idx) = op (get a idx) (get b (i :: idx)).
Proof.
  intros Ha Hb. unfold broadcast. rewrite Ha, Hb, bshape_batch_r.
  eexists; split; [reflexivity|]. split; [reflexivity|].
  intros i idx Hi Hr. rewrite get_tabulate by (simpl; auto).
  rewrite bidx_batch by assumption. rewrite bidx_same by (simpl; auto). reflexivity.
Qed.

End BroadcastFacts.

(** ** Loops and slices *)

Lemma for_range_S (A : Type) (n : nat) (body : nat -> A -> result A) (init : A) :
  for_range (S n) body init = rbind (for_range n body init) (body n).
Proof.
  unfold for_range. rewrite seq_S, fold_left_app. reflexivity.
Qed.

(** The invariant rule of a [for] loop whose body does not raise. *)
Lemma for_range_inv (A : Type) (P : nat -> A -> Prop) (n : nat)
    (body : nat -> A -> result A) (init : A) :
  P 0 init ->
  (forall i a, i < n -> P i a -> exists a', body i a = Ok a' /\ P (S i) a') ->
  exists r, for_range n body init = Ok r /\ P n r.
Proof.
  intros H0 Hstep. induction n as [|n IH].
  - exists init. split; [reflexivity | assumption].
  - destruct IH as (r & Hr & HP).
    { intros i a Hi. apply Hstep. lia. }
    destruct (Hstep n r (Nat.lt_succ_diag_r n) HP) as (r' & Hb & HP').
    exists r'. rewrite for_range_S, Hr. simpl. auto.
Qed.

Lemma slice_adjust_bound (start stop : Z) (len : nat) :
  fst (slice_adjust start stop len) + snd (slice_adjust start stop len) <= len.
Proof.
  unfold slice_adjust; simpl.
  destruct (Z.ltb_spec start 0), (Z.ltb_spec stop 0);
    repeat match goal with
           | |- context [Z.ltb ?a ?b] => destruct (Z.ltb_spec a b)
           | |- context [Z.leb ?a ?b] => destruct (Z.leb_spec a b)
           end; lia.
Qed.

(** A slice whose bounds already lie in the sequence, in order, is taken as
    written. *)
Lemma slice_adjust_inside (start stop : Z) (len : nat) :
  (0 <= start <= stop)%Z -> (stop <= Z.of_nat len)%Z ->
  slice_adjust start stop len = (Z.to_nat start, Z.to_nat (stop - start)).
Proof.
  intros Hs He. unfold slice_adjust.
  repeat match goal with
         | |- context [Z.ltb ?a ?b] => destruct (Z.ltb_spec a b)
         | |- context [Z.leb ?a ?b] => destruct (Z.leb_spec a b)
         end; f_equal; lia.
Qed.

Lemma map_seq_offset (A : Type) (g : nat -> A) (a n : nat) :
  map (fun i => g (a + i)) (seq 0 n) = map g (seq a n).
Proof.
  revert a g; induction n as [|n IH]; intros a g; simpl; [reflexivity|].
  rewrite Nat.add_0_r. f_equal.
  rewrite <- seq_shift, map_map.
  rewrite <- (IH (S a) g). apply map_ext. intros i. f_equal. lia.
Qed.

Section SliceFacts.

Context {F : Type} `{Scalar F}.

Lemma getitem_slice_spec (a : ndarray F) (N C H0 W n : nat) (start stop : Z) :
  shape a = [N; C; H0; W] -> n < N ->
  exists r, getitem_slice a n start stop = Ok r /\
    shape r = [snd (slice_adjust start stop C); H0; W] /\
    forall k h w, k < snd (slice_adjust start stop C) -> h < H0 -> w < W ->
      get r [k; h; w] = get a [n; fst (slice_adjust start stop C) + k; h; w].
Proof.
  intros Hs Hn. unfold getitem_slice. rewrite Hs.
  destruct (Nat.ltb_spec n N); [|lia].
  destruct (slice_adjust start stop C) as [s0 cnt]. simpl.
  eexists; split; [reflexivity|]. split; [reflexivity|].
  intros k h w Hk Hh Hw. rewrite get_tabulate by (simpl; auto). reflexivity.
Qed.

Lemma getitem_plane_spec (a : ndarray F) (N C H0 W n c : nat) :
  shape a = [N; C; H0; W] -> n < N -> c < C ->
  exists r, getitem_plane a n c = Ok r /\ shape r = [H0; W] /\
    forall h w, h < H0 -> w < W -> get r [h; w] = get a [n; c; h; w].
Proof.
  intros Hs Hn Hc. unfold getitem_plane. rewrite Hs.
  destruct (Nat.ltb_spec n N); [|lia]. destruct (Nat.ltb_spec c C); [|lia]. simpl.
  eexists; split; [reflexivity|]. split; [reflexivity|].
  intros h w Hh Hw. rewrite get_tabulate by (simpl; auto). reflexivity.
Qed.

Lemma setitem_plane_spec (a v : ndarray F) (N C H0 W n c : nat) :
  shape a = [N; C; H0; W] -> shape v = [H0; W] -> n < N -> c < C ->
  exists r, setitem_plane a n c v = Ok r /\ shape r = [N; C; H0; W] /\
    forall n' c' h w, n' < N -> c' < C -> h < H0 -> w < W ->
      get r [n'; c'; h; w] =
      if (n' =? n) && (c' =? c) then get v [h; w] else get a [n'; c'; h; w].
Proof.
  intros Hs Hv Hn Hc. unfold setitem_plane. rewrite Hs, Hv, bshape_refl.
  destruct (Nat.ltb_spec n N); [|lia]. destruct (Nat.ltb_spec c C); [|lia]. simpl.
  rewrite !Nat.eqb_refl. simpl.
  eexists; split; [reflexivity|]. split; [reflexivity|].
  intros n' c' h w Hn' Hc' Hh Hw. rewrite get_tabulate by (simpl; auto).
  rewrite bidx_same by (simpl; auto). reflexivity.
Qed.

Lemma np_sum0_spec (a : ndarray F) (d : nat) (s : list nat) :
  shape a = d :: s ->
  exists r, np_sum0 a = Ok r /\ shape r = s /\
    forall idx, in_range s idx ->
      get r idx = fsum (map (fun i => get a (i :: idx)) (seq 0 d)).
Proof.
  intros Hs. unfold np_sum0. rewrite Hs.
  eexists; split; [reflexivity|]. split; [reflexivity|].
  intros idx Hr. rewrite get_tabulate by assumption. reflexivity.
Qed.

End SliceFacts.

(** ** Local response normalisation *)

Section LRNFacts.

Context {F : Type} `{Scalar F}.

Import custom_LocalResponseNormalization.

Lemma sliced_channels_eq (self : t F) (C c : nat) :
  sliced_channels self C c =
  seq (fst (slice_adjust (window_start self c) (window_end self C c) C))
      (snd (slice_adjust (window_start self c) (window_end self C c) C)).
Proof.
  unfold sliced_channels.
  destruct (slice_adjust (window_start self c) (window_end self C c) C). reflexivity.
Qed.

(** The [scale] of the loop body, element by element. *)
Lemma local_scale_spec (self : t F) (X : ndarray F) (N C H0 W n c : nat) :
  shape X = [N; C; H0; W] -> n < N ->
  exists sc, local_scale self (np_square X) C n c = Ok sc /\ shape sc = [H0; W] /\
    forall h w, h < H0 -> w < W ->
      get sc [h; w] =
      fadd (bias self)
           (fmul (alpha self) (sum_of_squares X n h w (sliced_channels self C c))).
Proof.
  intros Hs Hn. unfold local_scale.
  assert (Hsq : shape (np_square X) = [N; C; H0; W]) by exact Hs.
  destruct (getitem_slice_spec (np_square X) (window_start self c) (window_end self C c)
              Hsq Hn) as (region & -> & Hrs & Hrg).
  simpl rbind.
  destruct (np_sum0_spec region Hrs) as (ls & -> & Hls & Hlg).
  simpl rbind.
  eexists; split; [reflexivity|]. split; [exact Hls|].
  intros h w Hh Hw.
  unfold scalar_l.
  rewrite get_np_map by (rewrite shape_np_map, Hls; simpl; auto).
  rewrite get_np_map by (rewrite Hls; simpl; auto).
  rewrite Hlg by (simpl; auto).
  do 2 f_equal. unfold sum_of_squares. rewrite sliced_channels_eq.
  pose proof (slice_adjust_bound (window_start self c) (window_end self C c) C) as Hb.
  set (first := fst (slice_adjust _ _ _)) in *.
  set (count := snd (slice_adjust _ _ _)) in *.
  rewrite <- map_seq_offset with (a := first). f_equal.
  apply map_ext_in. intros k Hk. apply in_seq in Hk.
  rewrite Hrg by lia.
  unfold np_square. rewrite get_np_map by (rewrite Hs; simpl; repeat split; lia).
  reflexivity.
Qed.

(** One iteration of the inner loop. *)
Lemma normalize_channel_spec (self : t F) (X out : ndarray F) (N C H0 W n c : nat) :
  shape X = [N; C; H0; W] -> shape out = [N; C; H0; W] -> n < N -> c < C ->
  exists out', normalize_channel self X (np_square X) C n c out = Ok out' /\
    shape out' = [N; C; H0; W] /\
    forall n' c' h w, n' < N -> c' < C -> h < H0 -> w < W ->
      get out' [n'; c'; h; w] =
      if (n' =? n) && (c' =? c)
      then lrn_formula (bias self) (alpha self) (beta self) X n c h w
             (sliced_channels self C c)
      else get out [n'; c'; h; w].
Proof.
  intros Hs Ho Hn Hc. unfold normalize_channel.
  destruct (local_scale_spec self X c Hs Hn) as (sc & -> & Hscs & Hscg). simpl rbind.
  destruct (getitem_plane_spec X Hs Hn Hc) as (plane & -> & Hps & Hpg). simpl rbind.
  destruct (broadcast_same fdiv plane (scalar_r fpow sc (beta self)))
    as (v & -> & Hvs & Hvg).
  { unfold scalar_r. rewrite shape_np_map. congruence. }
  simpl rbind. rewrite Hps in Hvs, Hvg.
  destruct (setitem_plane_spec out v Ho Hvs Hn Hc) as (out' & -> & Hos & Hog).
  eexists; split; [reflexivity|]. split; [exact Hos|].
  intros n' c' h w Hn' Hc' Hh Hw. rewrite Hog by assumption.
  destruct ((n' =? n) && (c' =? c)); [|reflexivity].
  rewrite Hvg by (simpl; auto). rewrite Hpg by assumption.
  unfold scalar_r. rewrite get_np_map by (rewrite Hscs; simpl; auto).
  rewrite Hscg by assumption. reflexivity.
Qed.

(** [forward] on any 4-dimensional input, whatever the radius: it returns,
    the result has the shape of the input, and each element is the formula
    over the channels the slice selects. *)
Lemma forward_spec (self : t F) (X : ndarray F) (N C H0 W : nat) :
  shape X = [N; C; H0; W] ->
  exists Y, forward self X = Ok Y /\ shape Y = shape X /\
    forall n c h w, n < N -> c < C -> h < H0 -> w < W ->
      get Y [n; c; h; w] =
      lrn_formula (bias self) (alpha self) (beta self) X n c h w
        (sliced_channels self C c).
Proof.
  intros Hs. unfold forward. rewrite Hs.
  set (value := fun n c h w =>
         lrn_formula (bias self) (alpha self) (beta self) X n c h w
           (sliced_channels self C c)).
  set (done := fun (n c : nat) (out : ndarray F) =>
         shape out = [N; C; H0; W] /\
         forall n' c' h w, n' < N -> c' < C -> h < H0 -> w < W ->
           n' < n \/ (n' = n /\ c' < c) -> get out [n'; c'; h; w] = value n' c' h w).
  destruct (@for_range_inv _ (fun n => done n 0) N
              (fun n output => for_range C (fun c output =>
                 normalize_channel self X (np_square X) C n c output) output)
              (np_zeros_like X)) as (Y & HY & HsY & HgY).
  - split; [unfold np_zeros_like; simpl; exact Hs|]. intros; lia.
  - intros n out Hn Hout.
    destruct (@for_range_inv _ (done n) C
                (fun c output => normalize_channel self X (np_square X) C n c output)
                out) as (out' & Hrun & Hs' & Hg').
    + exact Hout.
    + intros c o Hc [Hso Hgo].
      destruct (normalize_channel_spec self X o Hs Hso Hn Hc) as (o' & Ho' & Hso' & Hgo').
      exists o'. split; [exact Ho'|]. split; [exact Hso'|].
      intros n' c' h w Hn' Hc' Hh Hw Hdone. rewrite Hgo' by assumption.
      destruct (Nat.eqb_spec n' n) as [->|Hne]; simpl.
      * destruct (Nat.eqb_spec c' c) as [->|Hce]; [reflexivity|].
        apply Hgo; try assumption. lia.
      * apply Hgo; try assumption. lia.
    + exists out'. split; [exact Hrun|]. split; [exact Hs'|].
      intros n' c' h w Hn' Hc' Hh Hw Hdone. apply Hg'; try assumption. lia.
  - exists Y. split; [exact HY|]. split; [congruence|].
    intros n c h w Hn Hc Hh Hw. apply HgY; try assumption. lia.
Qed.

End LRNFacts.

(** ** Batch normalisation *)

Section BNFacts.

Context {F : Type} `{Scalar F}.

Import BatchNormalization.

Lemma np_mean0_spec (X : ndarray F) (N : nat) (fs : list nat) :
  shape X = N :: fs ->
  exists m, np_mean0 X = Ok m /\ shape m = fs /\
    forall idx, in_range fs idx -> get m idx = batch_mean_at X N idx.
Proof.
  intros Hs. unfold np_mean0. rewrite Hs.
  eexists; split; [reflexivity|]. split; [reflexivity|].
  intros idx Hr. rewrite get_tabulate by assumption. reflexivity.
Qed.

Lemma np_var0_spec (X : ndarray F) (N : nat) (fs : list nat) :
  shape X = N :: fs ->
  exists v, np_var0 X = Ok v /\ shape v = fs /\
    forall idx, in_range fs idx -> get v idx = batch_var_at X N idx.
Proof.
  intros Hs. unfold np_var0. rewrite Hs.
  eexists; split; [reflexivity|]. split; [reflexivity|].
  intros idx Hr. rewrite get_tabulate by assumption. reflexivity.
Qed.

Lemma normalized_spec (X mean var : ndarray F) (eps : F) (N : nat) (fs : list nat) :
  shape X = N :: fs -> shape mean = fs -> shape var = fs ->
  exists xn, normalized X mean var eps = Ok xn /\ shape xn = N :: fs /\
    forall i idx, i < N -> in_range fs idx ->
      get xn (i :: idx) =
      fdiv (fsub (get X (i :: idx)) (get mean idx)) (fsqrt (fadd (get var idx) eps)).
Proof.
  intros HX Hm Hv. unfold normalized.
  destruct (broadcast_batch_l fsub X mean HX Hm) as (c & -> & Hcs & Hcg). simpl rbind.
  destruct (broadcast_batch_l fdiv c (np_sqrt (scalar_r fadd var eps)) Hcs)
    as (xn & -> & Hxs & Hxg).
  { unfold np_sqrt, scalar_r. rewrite !shape_np_map. exact Hv. }
  eexists; split; [reflexivity|]. split; [exact Hxs|].
  intros i idx Hi Hr. rewrite Hxg, Hcg by assumption.
  unfold np_sqrt, scalar_r.
  rewrite get_np_map by (rewrite shape_np_map, Hv; assumption).
  rewrite get_np_map by (rewrite Hv; assumption). reflexivity.
Qed.

Lemma moving_average_spec (mom : F) (running batch : ndarray F) (fs : list nat) :
  shape running = fs -> shape batch = fs ->
  exists r, moving_average mom running batch = Ok r /\ shape r = fs /\
    forall idx, in_range fs idx ->
      get r idx = fadd (fmul mom (get running idx)) (fmul (fsub fone mom) (get batch idx)).
Proof.
  intros Hr Hb. unfold moving_average.
  destruct (broadcast_same fadd (scalar_l fmul mom running)
              (scalar_l fmul (fsub fone mom) batch)) as (r & -> & Hrs & Hrg).
  { unfold scalar_l. rewrite !shape_np_map. congruence. }
  unfold scalar_l in Hrs, Hrg. rewrite shape_np_map, Hr in Hrs, Hrg.
  eexists; split; [reflexivity|]. split; [exact Hrs|].
  intros idx Hi. rewrite Hrg by assumption.
  rewrite !get_np_map by (rewrite ?Hr, ?Hb; assumption). reflexivity.
Qed.

(** [self.gamma * X_norm + self.beta] *)
Lemma affine_spec (g b xn : ndarray F) (N : nat) (fs : list nat) :
  shape g = fs -> shape b = fs -> shape xn = N :: fs ->
  exists out,
    rbind (broadcast fmul g xn) (fun scaled => broadcast fadd scaled b) = Ok out /\
    shape out = N :: fs /\
    forall i idx, i < N -> in_range fs idx ->
      get out (i :: idx) = fadd (fmul (get g idx) (get xn (i :: idx))) (get b idx).
Proof.
  intros Hg Hb Hx.
  destruct (broadcast_batch_r fmul g xn Hg Hx) as (sc & -> & Hss & Hsg). simpl rbind.
  destruct (broadcast_batch_l fadd sc b Hss Hb) as (out & -> & Hos & Hog).
  eexists; split; [reflexivity|]. split; [exact Hos|].
  intros i idx Hi Hr. rewrite Hog, Hsg by assumption. reflexivity.
Qed.

(** The guarded initialisation is the whole difference between a call on an
    instance whose guard holds and a call on the initialized instance. *)
Lemma forward_needs_init (X : ndarray F) (training : bool) (self : t F) :
  needs_init self = true ->
  forward X training self = forward X training (initialize_params (tl (shape X)) self).
Proof.
  intros Hn. unfold forward, bind. rewrite Hn. reflexivity.
Qed.

Lemma initialized_initialize_params (fs : list nat) (self : t F) :
  initialized fs (initialize_params fs self).
Proof.
  unfold initialized, initialize_params; simpl.
  repeat split; eexists; split; reflexivity.
Qed.

Lemma initialized_no_init (fs : list nat) (self : t F) :
  initialized fs self -> needs_init self = false.
Proof.
  intros ((g & Hg & _) & (b & Hb & _) & _). unfold needs_init. rewrite Hg, Hb. reflexivity.
Qed.

(** A training call on an initialized instance with an input of the
    matching feature shape. *)
Lemma forward_training_spec (X : ndarray F) (self : t F) (N : nat) (fs : list nat)
    (g b rm rv : ndarray F) :
  shape X = N :: fs ->
  gamma self = Some g -> shape g = fs ->
  beta self = Some b -> shape b = fs ->
  running_mean self = Some rm -> shape rm = fs ->
  running_var self = Some rv -> shape rv = fs ->
  exists out rm' rv',
    forward X true self =
      (mk (epsilon self) (momentum self) (Some g) (Some b) (Some rm') (Some rv'), Ok out) /\
    shape out = N :: fs /\ shape rm' = fs /\ shape rv' = fs /\
    (forall i idx, i < N -> in_range fs idx ->
       get out (i :: idx) =
       bn_formula (get g idx) (get b idx) (get X (i :: idx))
         (batch_mean_at X N idx) (batch_var_at X N idx) (epsilon self)) /\
    (forall idx, in_range fs idx ->
       get rm' idx =
       fadd (fmul (momentum self) (get rm idx))
            (fmul (fsub fone (momentum self)) (batch_mean_at X N idx))) /\
    (forall idx, in_range fs idx ->
       get rv' idx =
       fadd (fmul (momentum self) (get rv idx))
            (fmul (fsub fone (momentum self)) (batch_var_at X N idx))).
Proof.
  intros HX Hg Hgs Hb Hbs Hrm Hrms Hrv Hrvs.
  destruct self as [eps mom g0 b0 rm0 rv0]; simpl in *. subst g0 b0 rm0 rv0.
  destruct (np_mean0_spec X HX) as (bm & Ebm & Hbms & Hbmg).
  destruct (np_var0_spec X HX) as (bv & Ebv & Hbvs & Hbvg).
  destruct (normalized_spec X bm bv eps HX Hbms Hbvs) as (xn & Exn & Hxs & Hxg).
  destruct (moving_average_spec mom rm bm Hrms Hbms) as (rm' & Erm & Hrms' & Hrmg).
  destruct (moving_average_spec mom rv bv Hrvs Hbvs) as (rv' & Erv & Hrvs' & Hrvg).
  destruct (affine_spec g b xn Hgs Hbs Hxs) as (out & Eout & Hos & Hog).
  exists out, rm', rv'.
  split.
  { unfold forward, bind, attr, operand, lift, assign, ret, needs_init; simpl.
    rewrite Ebm, Ebv, Exn, Erm, Erv. simpl.
    unfold rbind in Eout. destruct (broadcast fmul g xn); [|discriminate].
    rewrite Eout. reflexivity. }
  split; [exact Hos|]. split; [exact Hrms'|]. split; [exact Hrvs'|].
  split; [|split].
  - intros i idx Hi Hr. rewrite Hog, Hxg by assumption.
    rewrite Hbmg, Hbvg by assumption. reflexivity.
  - intros idx Hr. rewrite Hrmg, Hbmg by assumption. reflexivity.
  - intros idx Hr. rewrite Hrvg, Hbvg by assumption. reflexivity.
Qed.

(** An inference call on an initialized instance with an input of the
    matching feature shape. *)
Lemma forward_inference_spec (X : ndarray F) (self : t F) (N : nat) (fs : list nat)
    (g b rm rv : ndarray F) :
  shape X = N :: fs ->
  gamma self = Some g -> shape g = fs ->
  beta self = Some b -> shape b = fs ->
  running_mean self = Some rm -> shape rm = fs ->
  running_var self = Some rv -> shape rv = fs ->
  exists out,
    forward X false self = (self, Ok out) /\
    shape out = N :: fs /\
    forall i idx, i < N -> in_range fs idx ->
      get out (i :: idx) =
      bn_formula (get g idx) (get b idx) (get X (i :: idx))
        (get rm idx) (get rv idx) (epsilon self).
Proof.
  intros HX Hg Hgs Hb Hbs Hrm Hrms Hrv Hrvs.
  destruct self as [eps mom g0 b0 rm0 rv0]; simpl in *. subst g0 b0 rm0 rv0.
  destruct (normalized_spec X rm rv eps HX Hrms Hrvs) as (xn & Exn & Hxs & Hxg).
  destruct (affine_spec g b xn Hgs Hbs Hxs) as (out & Eout & Hos & Hog).
  exists out. split.
  { unfold forward, bind, attr, operand, lift, assign, ret, needs_init; simpl.
    unfold normalized, rbind in Exn.
    destruct (broadcast fsub X rm); [|discriminate]. rewrite Exn. simpl.
    unfold rbind in Eout. destruct (broadcast fmul g xn); [|discriminate].
    rewrite Eout. reflexivity. }
  split; [exact Hos|].
  intros i idx Hi Hr. rewrite Hog, Hxg by assumption. reflexivity.
Qed.

(** An inference call assigns nothing once the guard is off, whether it
    returns or raises. *)
Lemma forward_inference_frame (X : ndarray F) (self : t F) :
  needs_init self = false -> fst (forward X false self) = self.
Proof.
  intros Hn. unfold forward, bind, attr, operand, lift, assign, ret. rewrite Hn.
  destruct (running_mean self); [|reflexivity].
  destruct (broadcast fsub X n); [|reflexivity].
  destruct (running_var self); [|reflexivity].
  destruct (broadcast fdiv a _); [|reflexivity].
  destruct (gamma self); [|reflexivity].
  destruct (broadcast fmul _ _); [|reflexivity].
  destruct (beta self); [|reflexivity].
  destruct (broadcast fadd _ _); reflexivity.
Qed.

End BNFacts.

(** ** The window of the specification and the slice of the code *)

Lemma channel_window_In (radius : Z) (C c i : nat) :
  In i (channel_window radius C c) <->
  (Z.max 0 (Z.of_nat c - radius / 2) <= Z.of_nat i
   < Z.min (Z.of_nat C) (Z.of_nat c + radius / 2 + 1))%Z.
Proof.
  unfold channel_window. rewrite in_seq. lia.
Qed.

(** For a radius that is not negative the slice is taken as written: it
    selects exactly the clamped window. *)
Lemma sliced_channels_window {F : Type} `{Scalar F}
    (self : custom_LocalResponseNormalization.t F) (C c : nat) :
  (0 <= custom_LocalResponseNormalization.depth_radius self)%Z -> c < C ->
  custom_LocalResponseNormalization.sliced_channels self C c =
  channel_window (custom_LocalResponseNormalization.depth_radius self) C c.
Proof.
  intros Hr Hc.
  unfold custom_LocalResponseNormalization.sliced_channels, channel_window,
    custom_LocalResponseNormalization.window_start, custom_LocalResponseNormalization.window_end.
  assert (Hh : (0 <= custom_LocalResponseNormalization.depth_radius self / 2)%Z)
    by (apply Z.div_pos; lia).
  rewrite slice_adjust_inside by lia. reflexivity.
Qed.

(** C1. For a 4-dimensional input of shape (N, C, H, W) and a configuration
    whose radius r is not negative, [forward] returns an array Y with
    Y[n,c,h,w] = X[n,c,h,w] / (bias + alpha * S)^beta at every index, where S
    is the sum of the squares X[n,i,h,w]^2 over the channels i of the window
    [max(0, c - r//2), min(C, c + r//2 + 1)): the floor of r/2, clamped at
    the channel boundaries. *)
Theorem lrn_forward_window_formula {F : Type} `{Scalar F}
    (self : custom_LocalResponseNormalization.t F) (X : ndarray F) (N C H0 W : nat) :
  shape X = [N; C; H0; W] ->
  (0 <= custom_LocalResponseNormalization.depth_radius self)%Z ->
  exists Y, custom_LocalResponseNormalization.forward self X = Ok Y /\
    forall n c h w, n < N -> c < C -> h < H0 -> w < W ->
      get Y [n; c; h; w] =
      lrn_formula (custom_LocalResponseNormalization.bias self)
        (custom_LocalResponseNormalization.alpha self)
        (custom_LocalResponseNormalization.beta self) X n c h w
        (channel_window (custom_LocalResponseNormalization.depth_radius self) C c).
Proof.
  intros Hs Hr.
  destruct (forward_spec self X Hs) as (Y & HY & _ & Hg).
  exists Y. split; [exact HY|].
  intros n c h w Hn Hc Hh Hw.
  rewrite <- sliced_channels_window by assumption. apply Hg; assumption.
Qed.

(** With a negative radius the bounds cross: unless the end bound is itself
    negative (and then counts from the last channel), the slice is empty. *)
Lemma sliced_channels_negative_radius {F : Type} `{Scalar F}
    (self : custom_LocalResponseNormalization.t F) (C c : nat) :
  (custom_LocalResponseNormalization.depth_radius self < 0)%Z -> c < C ->
  (0 <= Z.of_nat c + custom_LocalResponseNormalization.depth_radius self / 2 + 1)%Z ->
  custom_LocalResponseNormalization.sliced_channels self C c = [].
Proof.
  intros Hr Hc He.
  assert (Hh : (custom_LocalResponseNormalization.depth_radius self / 2 <= -1)%Z)
    by (Z.div_mod_to_equations; lia).
  unfold custom_LocalResponseNormalization.sliced_channels, slice_adjust,
    custom_LocalResponseNormalization.window_start, custom_LocalResponseNormalization.window_end.
  set (h := (custom_LocalResponseNormalization.depth_radius self / 2)%Z) in *.
  repeat match goal with
         | |- context [Z.ltb ?a ?b] => destruct (Z.ltb_spec a b)
         | |- context [Z.leb ?a ?b] => destruct (Z.leb_spec a b)
         end;
    match goal with |- seq _ ?n = [] => replace n with 0 by lia; reflexivity end.
Qed.

(** C5, as the code has it.  A negative radius is not rejected: on every
    4-dimensional input [forward] returns an array of the input's shape,
    each element being the formula over the channels that Python's slice
    [start:end] selects for the computed bounds; for a channel c with
    c + r//2 + 1 >= 0 that slice is empty. *)
Theorem lrn_negative_radius_returns {F : Type} `{Scalar F}
    (self : custom_LocalResponseNormalization.t F) (X : ndarray F) (N C H0 W : nat) :
  (custom_LocalResponseNormalization.depth_radius self < 0)%Z ->
  shape X = [N; C; H0; W] ->
  exists Y, custom_LocalResponseNormalization.forward self X = Ok Y /\
    shape Y = shape X /\
    forall n c h w, n < N -> c < C -> h < H0 -> w < W ->
      get Y [n; c; h; w] =
      lrn_formula (custom_LocalResponseNormalization.bias self)
        (custom_LocalResponseNormalization.alpha self)
        (custom_LocalResponseNormalization.beta self) X n c h w
        (custom_LocalResponseNormalization.sliced_channels self C c) /\
      ((0 <= Z.of_nat c + custom_LocalResponseNormalization.depth_radius self / 2 + 1)%Z ->
       custom_LocalResponseNormalization.sliced_channels self C c = []).
Proof.
  intros Hr Hs.
  destruct (forward_spec self X Hs) as (Y & HY & HsY & Hg).
  exists Y. split; [exact HY|]. split; [exact HsY|].
  intros n c h w Hn Hc Hh Hw. split.
  - apply Hg; assumption.
  - intros He. apply sliced_channels_negative_radius; assumption.
Qed.

(** ** What a call of [forward] may assign *)

(** Case analysis on every attribute read and every NumPy call of [forward]. *)
Ltac forward_cases :=
  unfold BatchNormalization.forward, BatchNormalization.bind, BatchNormalization.attr,
    BatchNormalization.operand, BatchNormalization.lift, BatchNormalization.assign,
    BatchNormalization.ret;
  repeat match goal with
         | |- context [match ?x with _ => _ end] =>
             lazymatch x with
             | context [match _ with _ => _ end] => fail
             | _ => destruct x eqn:?
             end
         end.

Section BNFrame.

Context {F : Type} `{Scalar F}.

Import BatchNormalization.

(** Once scale and shift are set, [forward] assigns neither of them, nor
    the hyperparameters. *)
Lemma forward_params_frame (X : ndarray F) (training : bool) (self : t F) :
  needs_init self = false ->
  gamma (fst (forward X training self)) = gamma self /\
  beta (fst (forward X training self)) = beta self /\
  epsilon (fst (forward X training self)) = epsilon self /\
  momentum (fst (forward X training self)) = momentum self.
Proof.
  intros Hn. destruct training.
  - forward_cases; try discriminate; simpl; auto.
  - rewrite forward_inference_frame by assumption. auto.
Qed.

Lemma needs_init_initialize_params (fs : list nat) (self : t F) :
  needs_init (initialize_params fs self) = false.
Proof. reflexivity. Qed.

(** After any call of [forward] the guard is off. *)
Lemma forward_guard_off (X : ndarray F) (training : bool) (self : t F) :
  needs_init (fst (forward X training self)) = false.
Proof.
  destruct (needs_init self) eqn:Hn.
  - rewrite forward_needs_init by assumption.
    destruct (forward_params_frame X training _
                (needs_init_initialize_params (tl (shape X)) self)) as (Hg & Hb & _).
    unfold needs_init. rewrite Hg, Hb. reflexivity.
  - destruct (forward_params_frame X training _ Hn) as (Hg & Hb & _).
    unfold needs_init in *. rewrite Hg, Hb. exact Hn.
Qed.

Lemma step_guard_off (self : t F) (c : call F) :
  needs_init self = false -> needs_init (step self c) = false.
Proof.
  intros Hn. destruct c as [X training | g b]; simpl.
  - apply forward_guard_off.
  - reflexivity.
Qed.

Lemma run_guard_off (cs : list (call F)) (self : t F) :
  needs_init self = false -> needs_init (run self cs) = false.
Proof.
  revert self; induction cs as [|c cs IH]; intros self Hn; simpl; [exact Hn|].
  apply IH. apply step_guard_off. exact Hn.
Qed.

(** What a call of [forward] may leave in [running_mean] and in
    [running_var] once scale and shift are set: the array it found, or the
    moving average of that array with the batch statistic. *)
Lemma forward_running_mean_cases (X : ndarray F) (training : bool) (self : t F) :
  needs_init self = false ->
  kept_or_averaged (momentum self) (running_mean self)
    (running_mean (fst (forward X training self))) (np_mean0 X).
Proof.
  intros Hn. unfold kept_or_averaged. destruct training.
  - forward_cases; try discriminate; simpl in *; auto;
      right; do 3 eexists; repeat split; eassumption.
  - rewrite forward_inference_frame by assumption. auto.
Qed.

Lemma forward_running_var_kept_or_averaged (X : ndarray F) (training : bool)
    (self : t F) :
  needs_init self = false ->
  kept_or_averaged (momentum self) (running_var self)
    (running_var (fst (forward X training self))) (np_var0 X).
Proof.
  intros Hn. unfold kept_or_averaged. destruct training.
  - forward_cases; try discriminate; simpl in *; auto;
      right; do 3 eexists; repeat split; eassumption.
  - rewrite forward_inference_frame by assumption. auto.
Qed.

(** Once scale and shift are set no call of [forward] initializes again:
    scale and shift stay the arrays they are, and each running statistic is
    kept or averaged. *)
Lemma forward_keeps_arrays (X : ndarray F) (training : bool) (self : t F)
    (g b : ndarray F) :
  gamma self = Some g -> beta self = Some b ->
  gamma (fst (forward X training self)) = Some g /\
  beta (fst (forward X training self)) = Some b /\
  kept_or_averaged (momentum self) (running_mean self)
    (running_mean (fst (forward X training self))) (np_mean0 X) /\
  kept_or_averaged (momentum self) (running_var self)
    (running_var (fst (forward X training self))) (np_var0 X).
Proof.
  intros Hg Hb.
  assert (Hn : needs_init self = false)
    by (unfold needs_init; rewrite Hg, Hb; reflexivity).
  destruct (forward_params_frame X training _ Hn) as (Hg' & Hb' & _).
  split; [congruence|]. split; [congruence|]. split.
  - apply forward_running_mean_cases; exact Hn.
  - apply forward_running_var_kept_or_averaged; exact Hn.
Qed.

(** With scale and shift set and the running statistics unset, every call
    of [forward] raises and assigns nothing. *)
Lemma forward_without_statistics (X : ndarray F) (training : bool) (self : t F) :
  needs_init self = false ->
  running_mean self = None -> running_var self = None ->
  exists e, forward X training self = (self, Err e).
Proof.
  intros Hn Hm Hv. destruct training.
  - unfold forward, bind, attr, operand, lift, assign, ret. rewrite Hn, Hm.
    destruct (np_mean0 X); [|eexists; reflexivity].
    destruct (np_var0 X); [|eexists; reflexivity].
    destruct (normalized X a a0 (epsilon self)); eexists; reflexivity.
  - unfold forward, bind, attr, operand, lift, assign, ret. rewrite Hn, Hm.
    eexists; reflexivity.
Qed.

End BNFrame.

(** C6. A first [forward] call on an instance whose scale and shift are
    unset proceeds from the freshly allocated arrays scale = ones,
    shift = zeros, running mean = zeros, running variance = ones of the
    feature shape X.shape[1:]; it leaves scale and shift so allocated (and,
    when it is an inference call, the running statistics too).  That
    happens once: in the instance reached by any later history of calls,
    scale and shift are set, and a further [forward] call leaves them the
    arrays they are and leaves each running statistic as it found it or as
    the moving average of the array it found with the batch statistic,
    never as a fresh array. *)
Theorem bn_lazy_initialisation_once {F : Type} `{Scalar F}
    (self : BatchNormalization.t F) (X : ndarray F) (training : bool)
    (cs : list (BatchNormalization.call F)) (X' : ndarray F) (training' : bool) :
  BatchNormalization.gamma self = None ->
  BatchNormalization.beta self = None ->
  BatchNormalization.forward X training self =
    BatchNormalization.forward X training
      (BatchNormalization.mk (BatchNormalization.epsilon self)
         (BatchNormalization.momentum self)
         (Some (np_ones (tl (shape X)))) (Some (np_zeros (tl (shape X))))
         (Some (np_zeros (tl (shape X)))) (Some (np_ones (tl (shape X))))) /\
  BatchNormalization.gamma (fst (BatchNormalization.forward X training self)) =
    Some (np_ones (tl (shape X))) /\
  BatchNormalization.beta (fst (BatchNormalization.forward X training self)) =
    Some (np_zeros (tl (shape X))) /\
  BatchNormalization.running_mean (fst (BatchNormalization.forward X false self)) =
    Some (np_zeros (tl (shape X))) /\
  BatchNormalization.running_var (fst (BatchNormalization.forward X false self)) =
    Some (np_ones (tl (shape X))) /\
  forall later : BatchNormalization.t F,
    later = BatchNormalization.run
              (fst (BatchNormalization.forward X training self)) cs ->
    exists g b,
      BatchNormalization.gamma later = Some g /\
      BatchNormalization.beta later = Some b /\
      BatchNormalization.gamma
        (fst (BatchNormalization.forward X' training' later)) = Some g /\
      BatchNormalization.beta
        (fst (BatchNormalization.forward X' training' later)) = Some b /\
      kept_or_averaged (BatchNormalization.momentum later)
        (BatchNormalization.running_mean later)
        (BatchNormalization.running_mean
           (fst (BatchNormalization.forward X' training' later)))
        (np_mean0 X') /\
      kept_or_averaged (BatchNormalization.momentum later)
        (BatchNormalization.running_var later)
        (BatchNormalization.running_var
           (fst (BatchNormalization.forward X' training' later)))
        (np_var0 X').
Proof.
  intros Hg Hb.
  assert (Hn : BatchNormalization.needs_init self = true)
    by (unfold BatchNormalization.needs_init; rewrite Hg; reflexivity).
  pose proof (forward_needs_init X training self Hn) as Hfw.
  unfold BatchNormalization.initialize_params in Hfw.
  split; [exact Hfw|].
  set (self0 := BatchNormalization.mk _ _ _ _ _ _) in *.
  assert (Hn0 : BatchNormalization.needs_init self0 = false) by reflexivity.
  destruct (forward_params_frame X training _ Hn0) as (Hg' & Hb' & _).
  rewrite Hfw. split; [exact Hg'|]. split; [exact Hb'|].
  rewrite (forward_needs_init X false self Hn).
  rewrite forward_inference_frame by reflexivity.
  split; [reflexivity|]. split; [reflexivity|].
  intros later ->.
  pose proof (run_guard_off cs _ (forward_guard_off X training self0)) as Hoff.
  set (later := BatchNormalization.run _ cs) in *.
  unfold BatchNormalization.needs_init in Hoff.
  destruct (BatchNormalization.gamma later) as [g|] eqn:Hgl; [|discriminate].
  destruct (BatchNormalization.beta later) as [b|] eqn:Hbl; [|discriminate].
  exists g, b. split; [reflexivity|]. split; [reflexivity|].
  apply forward_keeps_arrays; assumption.
Qed.

(** C10. When [update_params] is called on an instance before any [forward]
    call, then after any further history of calls the running mean and the
    running variance are still unset, the guard of the lazy initialisation
    is off, and a [forward] call, training or inference, raises and leaves
    the instance as it was. *)
Theorem bn_update_params_first_disables_forward {F : Type} `{Scalar F}
    (eps mom : F) (g s : ndarray F) (cs : list (BatchNormalization.call F))
    (X : ndarray F) (training : bool) :
  BatchNormalization.needs_init
    (BatchNormalization.run
       (BatchNormalization.update_params g s (BatchNormalization.init eps mom)) cs) = false /\
  BatchNormalization.running_mean
    (BatchNormalization.run
       (BatchNormalization.update_params g s (BatchNormalization.init eps mom)) cs) = None /\
  BatchNormalization.running_var
    (BatchNormalization.run
       (BatchNormalization.update_params g s (BatchNormalization.init eps mom)) cs) = None /\
  exists e,
    BatchNormalization.forward X training
      (BatchNormalization.run
         (BatchNormalization.update_params g s (BatchNormalization.init eps mom)) cs) =
    (BatchNormalization.run
       (BatchNormalization.update_params g s (BatchNormalization.init eps mom)) cs,
     Err e).
Proof.
  set (self0 := BatchNormalization.update_params g s (BatchNormalization.init eps mom)).
  assert (Hinv : forall self : BatchNormalization.t F,
             BatchNormalization.needs_init self = false /\
             BatchNormalization.running_mean self = None /\
             BatchNormalization.running_var self = None ->
             BatchNormalization.needs_init (BatchNormalization.run self cs) = false /\
             BatchNormalization.running_mean (BatchNormalization.run self cs) = None /\
             BatchNormalization.running_var (BatchNormalization.run self cs) = None).
  { induction cs as [|c cs IH]; intros self Hself; [exact Hself|].
    simpl. apply IH. destruct Hself as (Hn & Hm & Hv).
    destruct c as [X' training' | g' b']; simpl.
    - destruct (forward_without_statistics X' training' self Hn Hm Hv) as (e & ->).
      simpl. auto.
    - auto. }
  destruct (Hinv self0) as (Hn & Hm & Hv); [repeat split|].
  split; [exact Hn|]. split; [exact Hm|]. split; [exact Hv|].
  apply forward_without_statistics; assumption.
Qed.

(** ** Well-formed results *)

Lemma for_range_post (A : Type) (P : A -> Prop) (n : nat)
    (body : nat -> A -> result A) (init r : A) :
  P init ->
  (forall i a a', P a -> body i a = Ok a' -> P a') ->
  for_range n body init = Ok r -> P r.
Proof.
  intros H0 Hstep. revert r. induction n as [|n IH]; intros r.
  - intros E; injection E as <-. exact H0.
  - rewrite for_range_S. destruct (for_range n body init) as [a|e]; simpl; [|discriminate].
    intros E. apply (Hstep n a r); [apply IH; reflexivity | exact E].
Qed.

Section WellFormed.

Context {F : Type} `{Scalar F}.

Lemma well_formed_tabulate (s : list nat) (f : list nat -> F) :
  well_formed (tabulate s f).
Proof. unfold well_formed, tabulate; simpl. rewrite length_map. apply length_indices. Qed.

Lemma well_formed_np_full (s : list nat) (v : F) : well_formed (np_full s v).
Proof. unfold well_formed, np_full; simpl. apply repeat_length. Qed.

Lemma broadcast_well_formed (op : F -> F -> F) (a b r : ndarray F) :
  broadcast op a b = Ok r -> well_formed r.
Proof.
  unfold broadcast. destruct (bshape (shape a) (shape b)); [|discriminate].
  intros E; injection E as <-. apply well_formed_tabulate.
Qed.

Lemma setitem_plane_well_formed (a v r : ndarray F) (n c : nat) :
  setitem_plane a n c v = Ok r -> well_formed r.
Proof.
  unfold setitem_plane.
  repeat match goal with
         | |- context [match ?x with _ => _ end] =>
             lazymatch x with
             | context [match _ with _ => _ end] => fail
             | _ => destruct x
             end
         end; try discriminate.
  intros E; injection E as <-. apply well_formed_tabulate.
Qed.

Lemma lrn_forward_well_formed (self : custom_LocalResponseNormalization.t F)
    (X Y : ndarray F) :
  custom_LocalResponseNormalization.forward self X = Ok Y -> well_formed Y.
Proof.
  unfold custom_LocalResponseNormalization.forward.
  destruct (shape X) as [|N [|C [|H0 [|W [|? ?]]]]]; try discriminate.
  apply for_range_post.
  - apply well_formed_np_full.
  - intros n a a' Ha. apply for_range_post; [exact Ha|].
    intros c o o' _. unfold custom_LocalResponseNormalization.normalize_channel.
    destruct (custom_LocalResponseNormalization.local_scale _ _ _ _ _); simpl;
      [|discriminate].
    destruct (getitem_plane X n c); simpl; [|discriminate].
    destruct (broadcast fdiv _ _); simpl; [|discriminate].
    apply setitem_plane_well_formed.
Qed.

Lemma bn_forward_well_formed (X out : ndarray F) (training : bool)
    (self : BatchNormalization.t F) :
  snd (BatchNormalization.forward X training self) = Ok out -> well_formed out.
Proof.
  destruct training; forward_cases; simpl; try discriminate;
    intros E; apply (broadcast_well_formed _ _ _ E).
Qed.

End WellFormed.

(** ** The forward pass, element by element *)

(** C2. For an input X with a batch axis, of shape (N, feature shape), a
    training call returns scale * ((X - batch_mean) / sqrt(batch_var +
    epsilon)) + shift, where batch_mean is the mean over the batch axis and
    batch_var is the population variance over it (both divide by N): on an
    instance initialized for that feature shape with its own scale and
    shift, and on an instance not yet initialized with scale = 1 and
    shift = 0. *)
Theorem bn_training_forward_formula {F : Type} `{Scalar F}
    (X : ndarray F) (N : nat) (fs : list nat) :
  shape X = N :: fs ->
  (forall (self : BatchNormalization.t F) (g b rm rv : ndarray F),
      BatchNormalization.gamma self = Some g -> shape g = fs ->
      BatchNormalization.beta self = Some b -> shape b = fs ->
      BatchNormalization.running_mean self = Some rm -> shape rm = fs ->
      BatchNormalization.running_var self = Some rv -> shape rv = fs ->
      exists out self',
        BatchNormalization.forward X true self = (self', Ok out) /\
        shape out = shape X /\
        forall i idx, i < N -> in_range fs idx ->
          get out (i :: idx) =
          bn_formula (get g idx) (get b idx) (get X (i :: idx))
            (batch_mean_at X N idx) (batch_var_at X N idx)
            (BatchNormalization.epsilon self)) /\
  (forall self : BatchNormalization.t F,
      BatchNormalization.gamma self = None ->
      BatchNormalization.beta self = None ->
      exists out self',
        BatchNormalization.forward X true self = (self', Ok out) /\
        shape out = shape X /\
        forall i idx, i < N -> in_range fs idx ->
          get out (i :: idx) =
          bn_formula fone fzero (get X (i :: idx))
            (batch_mean_at X N idx) (batch_var_at X N idx)
            (BatchNormalization.epsilon self)).
Proof.
  intros HX. split.
  - intros self g b rm rv Hg Hgs Hb Hbs Hrm Hrms Hrv Hrvs.
    destruct (forward_training_spec X self HX Hg Hgs Hb Hbs Hrm Hrms Hrv Hrvs)
      as (out & rm' & rv' & Hfw & Hos & _ & _ & Hog & _).
    exists out. eexists. split; [exact Hfw|]. split; [congruence|]. exact Hog.
  - intros self Hg Hb.
    assert (Hn : BatchNormalization.needs_init self = true)
      by (unfold BatchNormalization.needs_init; rewrite Hg; reflexivity).
    rewrite (forward_needs_init X true self Hn), HX. simpl tl.
    destruct (forward_training_spec X (BatchNormalization.initialize_params fs self) HX
                eq_refl eq_refl eq_refl eq_refl eq_refl eq_refl eq_refl eq_refl)
      as (out & rm' & rv' & Hfw & Hos & _ & _ & Hog & _).
    exists out. eexists. split; [exact Hfw|]. split; [exact Hos|].
    intros i idx Hi Hr. rewrite Hog by assumption.
    unfold np_ones, np_zeros. rewrite !get_np_full by assumption. reflexivity.
Qed.

(** C3. A training call on an initialized instance, with an input of the
    matching feature shape, replaces the running statistics element by
    element by running_mean := momentum * running_mean + (1 - momentum) *
    batch_mean and running_var := momentum * running_var + (1 - momentum) *
    batch_var.  On an instance not yet initialized (zeros and ones are then
    allocated first), and in an arithmetic where x * 0 = 0 and 0 + x = x,
    the first training call leaves running_mean = (1 - momentum) * batch_mean
    and running_var = momentum * 1 + (1 - momentum) * batch_var. *)
Theorem bn_running_statistics_update {F : Type} `{Scalar F}
    (X : ndarray F) (N : nat) (fs : list nat) :
  shape X = N :: fs ->
  (forall (self : BatchNormalization.t F) (g b rm rv : ndarray F),
      BatchNormalization.gamma self = Some g -> shape g = fs ->
      BatchNormalization.beta self = Some b -> shape b = fs ->
      BatchNormalization.running_mean self = Some rm -> shape rm = fs ->
      BatchNormalization.running_var self = Some rv -> shape rv = fs ->
      exists rm' rv',
        BatchNormalization.running_mean
          (fst (BatchNormalization.forward X true self)) = Some rm' /\
        BatchNormalization.running_var
          (fst (BatchNormalization.forward X true self)) = Some rv' /\
        shape rm' = fs /\ shape rv' = fs /\
        forall idx, in_range fs idx ->
          get rm' idx =
            fadd (fmul (BatchNormalization.momentum self) (get rm idx))
                 (fmul (fsub fone (BatchNormalization.momentum self))
                       (batch_mean_at X N idx)) /\
          get rv' idx =
            fadd (fmul (BatchNormalization.momentum self) (get rv idx))
                 (fmul (fsub fone (BatchNormalization.momentum self))
                       (batch_var_at X N idx))) /\
  ((forall x : F, fmul x fzero = fzero) -> (forall x : F, fadd fzero x = x) ->
   forall self : BatchNormalization.t F,
      BatchNormalization.gamma self = None ->
      BatchNormalization.beta self = None ->
      exists rm' rv',
        BatchNormalization.running_mean
          (fst (BatchNormalization.forward X true self)) = Some rm' /\
        BatchNormalization.running_var
          (fst (BatchNormalization.forward X true self)) = Some rv' /\
        shape rm' = fs /\ shape rv' = fs /\
        forall idx, in_range fs idx ->
          get rm' idx =
            fmul (fsub fone (BatchNormalization.momentum self)) (batch_mean_at X N idx) /\
          get rv' idx =
            fadd (fmul (BatchNormalization.momentum self) fone)
                 (fmul (fsub fone (BatchNormalization.momentum self))
                       (batch_var_at X N idx))).
Proof.
  intros HX. split.
  - intros self g b rm rv Hg Hgs Hb Hbs Hrm Hrms Hrv Hrvs.
    destruct (forward_training_spec X self HX Hg Hgs Hb Hbs Hrm Hrms Hrv Hrvs)
      as (out & rm' & rv' & Hfw & _ & Hs1 & Hs2 & _ & Hm & Hv).
    exists rm', rv'. rewrite Hfw. simpl.
    repeat (split; [first [reflexivity | assumption]|]).
    intros idx Hr. split; [apply Hm | apply Hv]; assumption.
  - intros Hmul0 Hadd0 self Hg Hb.
    assert (Hn : BatchNormalization.needs_init self = true)
      by (unfold BatchNormalization.needs_init; rewrite Hg; reflexivity).
    rewrite (forward_needs_init X true self Hn), HX. simpl tl.
    destruct (forward_training_spec X (BatchNormalization.initialize_params fs self) HX
                eq_refl eq_refl eq_refl eq_refl eq_refl eq_refl eq_refl eq_refl)
      as (out & rm' & rv' & Hfw & _ & Hs1 & Hs2 & _ & Hm & Hv).
    exists rm', rv'. rewrite Hfw. simpl.
    repeat (split; [first [reflexivity | assumption]|]).
    intros idx Hr. rewrite Hm, Hv by assumption.
    unfold np_ones, np_zeros. rewrite !get_np_full by assumption. simpl.
    rewrite Hmul0, Hadd0. split; reflexivity.
Qed.

(** C7. On an initialized instance an inference call assigns nothing to the
    instance, whether it returns or raises, so that a second inference call
    with the same input gives the same result; and with an input of the
    matching feature shape it returns scale * ((X - running_mean) /
    sqrt(running_var + epsilon)) + shift. *)
Theorem bn_inference_forward_frame {F : Type} `{Scalar F}
    (self : BatchNormalization.t F) (fs : list nat) (g b rm rv : ndarray F) :
  BatchNormalization.gamma self = Some g -> shape g = fs ->
  BatchNormalization.beta self = Some b -> shape b = fs ->
  BatchNormalization.running_mean self = Some rm -> shape rm = fs ->
  BatchNormalization.running_var self = Some rv -> shape rv = fs ->
  (forall X : ndarray F,
      fst (BatchNormalization.forward X false self) = self /\
      BatchNormalization.forward X false
        (fst (BatchNormalization.forward X false self)) =
      BatchNormalization.forward X false self) /\
  (forall (X : ndarray F) (N : nat),
      shape X = N :: fs ->
      exists out,
        BatchNormalization.forward X false self = (self, Ok out) /\
        shape out = shape X /\
        forall i idx, i < N -> in_range fs idx ->
          get out (i :: idx) =
          bn_formula (get g idx) (get b idx) (get X (i :: idx))
            (get rm idx) (get rv idx) (BatchNormalization.epsilon self)).
Proof.
  intros Hg Hgs Hb Hbs Hrm Hrms Hrv Hrvs.
  assert (Hn : BatchNormalization.needs_init self = false)
    by (unfold BatchNormalization.needs_init; rewrite Hg, Hb; reflexivity).
  split.
  - intros X. rewrite forward_inference_frame by exact Hn. split; reflexivity.
  - intros X N HX.
    destruct (forward_inference_spec X self HX Hg Hgs Hb Hbs Hrm Hrms Hrv Hrvs)
      as (out & Hfw & Hos & Hog).
    exists out. split; [exact Hfw|]. split; [congruence|]. exact Hog.
Qed.

(** C9. The output is an array of the shape of the input, with one element
    for each index of that shape: [forward] of the local response
    normalisation on every 4-dimensional input, and [forward] of the batch
    normalisation, training or inference, on every input with a batch axis
    given to an instance that is not yet initialized or is initialized for
    the input's feature shape. *)
Theorem forward_preserves_shape {F : Type} `{Scalar F} :
  (forall (self : custom_LocalResponseNormalization.t F) (X : ndarray F) (N C H0 W : nat),
      shape X = [N; C; H0; W] ->
      exists Y, custom_LocalResponseNormalization.forward self X = Ok Y /\
                shape Y = shape X /\ well_formed Y) /\
  (forall (self : BatchNormalization.t F) (X : ndarray F) (training : bool)
          (N : nat) (fs : list nat),
      shape X = N :: fs ->
      (BatchNormalization.gamma self = None /\ BatchNormalization.beta self = None) \/
      BatchNormalization.initialized fs self ->
      exists out self',
        BatchNormalization.forward X training self = (self', Ok out) /\
        shape out = shape X /\ well_formed out).
Proof.
  split.
  - intros self X N C H0 W Hs.
    destruct (forward_spec self X Hs) as (Y & HY & HsY & _). exists Y.
    split; [exact HY|]. split; [exact HsY|]. apply (lrn_forward_well_formed self X HY).
  - intros self X training N fs HX Hself.
    assert (Hinit : forall self0 : BatchNormalization.t F,
               BatchNormalization.initialized fs self0 ->
               exists out self',
                 BatchNormalization.forward X training self0 = (self', Ok out) /\
                 shape out = shape X /\ well_formed out).
    { intros self0 ((g & Hg & Hgs) & (b & Hb & Hbs) & (rm & Hrm & Hrms) & (rv & Hrv & Hrvs)).
      assert (Hwf : forall out self',
                 BatchNormalization.forward X training self0 = (self', Ok out) ->
                 well_formed out).
      { intros out self' E. apply (bn_forward_well_formed X training self0).
        rewrite E. reflexivity. }
      destruct training.
      - destruct (forward_training_spec X self0 HX Hg Hgs Hb Hbs Hrm Hrms Hrv Hrvs)
          as (out & rm' & rv' & Hfw & Hos & _).
        exists out. eexists. split; [exact Hfw|]. split; [congruence|].
        apply (Hwf _ _ Hfw).
      - destruct (forward_inference_spec X self0 HX Hg Hgs Hb Hbs Hrm Hrms Hrv Hrvs)
          as (out & Hfw & Hos & _).
        exists out, self0. split; [exact Hfw|]. split; [congruence|].
        apply (Hwf _ _ Hfw). }
    destruct Hself as [[Hg Hb] | Hself].
    + assert (Hn : BatchNormalization.needs_init self = true)
        by (unfold BatchNormalization.needs_init; rewrite Hg; reflexivity).
      rewrite (forward_needs_init X training self Hn). apply Hinit.
      rewrite HX. apply initialized_initialize_params.
    + apply Hinit. exact Hself.
Qed.

(** ** Inputs of another feature shape *)

Lemma bshape_rev_none_sym (a b : list nat) :
  bshape_rev a b = None -> bshape_rev b a = None.
Proof.
  revert b; induction a as [|x a IH]; intros [|y b]; simpl; try discriminate.
  intros Hn. destruct (bshape_rev a b) as [r|] eqn:E.
  - rewrite (Nat.eqb_sym y x).
    destruct (bshape_rev b a); [|reflexivity].
    destruct (x =? y), (x =? 1), (y =? 1); try discriminate; reflexivity.
  - rewrite (IH _ E). reflexivity.
Qed.

Lemma bshape_none_sym (a b : list nat) : bshape a b = None -> bshape b a = None.
Proof.
  unfold bshape. intros Hn.
  destruct (bshape_rev (rev a) (rev b)) eqn:E; [discriminate|].
  rewrite (bshape_rev_none_sym _ _ E). reflexivity.
Qed.

Section BNMismatch.

Context {F : Type} `{Scalar F}.

Import BatchNormalization.

Lemma moving_average_shape (mom : F) (running batch : ndarray F) :
  match bshape (shape running) (shape batch) with
  | Some s => exists r, moving_average mom running batch = Ok r /\ shape r = s
  | None => moving_average mom running batch = Err ValueError
  end.
Proof.
  unfold moving_average, broadcast, scalar_l. rewrite !shape_np_map.
  destruct (bshape (shape running) (shape batch)); [|reflexivity].
  eexists; split; reflexivity.
Qed.

(** A training call on an initialized instance, the input having any
    trailing shape [ts]: it raises at the update of the running mean when
    [ts] cannot be broadcast against the feature shape and has assigned
    nothing by then; otherwise it has stored running statistics of the
    broadcast shape by the time it returns or raises. *)
Lemma forward_training_any_shape (X : ndarray F) (self : t F) (N : nat) (fs ts : list nat) :
  initialized fs self -> shape X = N :: ts ->
  match bshape fs ts with
  | None => forward X true self = (self, Err ValueError)
  | Some s =>
      exists rm' rv',
        running_mean (fst (forward X true self)) = Some rm' /\
        running_var (fst (forward X true self)) = Some rv' /\
        shape rm' = s /\ shape rv' = s
  end.
Proof.
  intros ((g & Hg & Hgs) & (b & Hb & Hbs) & (rm & Hrm & Hrms) & (rv & Hrv & Hrvs)) HX.
  destruct self as [eps mom g0 b0 rm0 rv0]; simpl in *. subst g0 b0 rm0 rv0.
  destruct (np_mean0_spec X HX) as (bm & Ebm & Hbms & _).
  destruct (np_var0_spec X HX) as (bv & Ebv & Hbvs & _).
  destruct (normalized_spec X bm bv eps HX Hbms Hbvs) as (xn & Exn & _ & _).
  pose proof (moving_average_shape mom rm bm) as Hm.
  pose proof (moving_average_shape mom rv bv) as Hv.
  rewrite Hrms, Hbms in Hm. rewrite Hrvs, Hbvs in Hv.
  unfold forward, bind, attr, operand, lift, assign, ret, needs_init; simpl.
  rewrite Ebm, Ebv, Exn. simpl.
  destruct (bshape fs ts) as [s|].
  - destruct Hm as (rm' & -> & Hs1). destruct Hv as (rv' & -> & Hs2). simpl.
    exists rm', rv'.
    destruct (broadcast fmul g xn); simpl; [|auto].
    destruct (broadcast fadd a b); simpl; auto.
  - rewrite Hm. reflexivity.
Qed.

Lemma forward_inference_incompatible (X : ndarray F) (self : t F) (N : nat)
    (fs ts : list nat) :
  initialized fs self -> shape X = N :: ts -> bshape fs ts = None ->
  forward X false self = (self, Err ValueError).
Proof.
  intros ((g & Hg & Hgs) & (b & Hb & Hbs) & (rm & Hrm & Hrms) & (rv & Hrv & Hrvs)) HX Hn.
  unfold forward, bind, attr, operand, lift, assign, ret, needs_init.
  rewrite Hg, Hb, Hrm. unfold broadcast. rewrite HX, Hrms.
  apply bshape_none_sym in Hn.
  destruct (bshape_none_batch _ _ N Hn) as [-> _]. reflexivity.
Qed.

End BNMismatch.

(** *** Broadcasting is symmetric and absorbs its operands *)

Lemma bshape_rev_nil_r (a : list nat) : bshape_rev a [] = Some a.
Proof. destruct a; reflexivity. Qed.

Lemma bshape_rev_comm (a b : list nat) : bshape_rev a b = bshape_rev b a.
Proof.
  revert b; induction a as [|x a IH]; intros [|y b]; simpl; try reflexivity.
  rewrite (IH b). destruct (bshape_rev b a) as [r|]; [|reflexivity].
  destruct (Nat.eqb_spec x y) as [->|Hxy].
  - rewrite Nat.eqb_refl. reflexivity.
  - destruct (Nat.eqb_spec y x) as [E|_]; [congruence|].
    destruct (Nat.eqb_spec x 1) as [->|Hx], (Nat.eqb_spec y 1) as [->|Hy];
      try congruence; reflexivity.
Qed.

Lemma bshape_comm (a b : list nat) : bshape a b = bshape b a.
Proof. unfold bshape. rewrite bshape_rev_comm. reflexivity. Qed.

Lemma bshape_rev_absorb (a b r : list nat) :
  bshape_rev a b = Some r -> bshape_rev r a = Some r.
Proof.
  revert b r; induction a as [|x a IH]; intros [|y b] r; simpl.
  - intros E; injection E as <-. reflexivity.
  - intros E; injection E as <-. reflexivity.
  - intros E; injection E as <-. apply bshape_rev_refl.
  - destruct (bshape_rev a b) as [r0|] eqn:E0; [|discriminate].
    specialize (IH _ _ E0).
    destruct (Nat.eqb_spec x y) as [->|Hxy].
    + intros E; injection E as <-. simpl. rewrite IH, Nat.eqb_refl. reflexivity.
    + destruct (Nat.eqb_spec x 1) as [->|Hx].
      * intros E; injection E as <-. simpl. rewrite IH.
        destruct (Nat.eqb_spec y 1) as [->|Hy]; [congruence|]. reflexivity.
      * destruct (Nat.eqb_spec y 1) as [->|Hy]; [|discriminate].
        intros E; injection E as <-. simpl. rewrite IH, Nat.eqb_refl. reflexivity.
Qed.

Lemma bshape_absorb (a b r : list nat) : bshape a b = Some r -> bshape r a = Some r.
Proof.
  unfold bshape. destruct (bshape_rev (rev a) (rev b)) as [r'|] eqn:E; [|discriminate].
  simpl. intros E'; injection E' as <-.
  rewrite rev_involutive, (bshape_rev_absorb _ _ E). reflexivity.
Qed.

Section BNOutcome.

Context {F : Type} `{Scalar F}.

Import BatchNormalization.

Lemma broadcast_shape (op : F -> F -> F) (a b : ndarray F) :
  match bshape (shape a) (shape b) with
  | Some s => exists r, broadcast op a b = Ok r /\ shape r = s
  | None => broadcast op a b = Err ValueError
  end.
Proof.
  unfold broadcast. destruct (bshape (shape a) (shape b)); [|reflexivity].
  eexists; split; reflexivity.
Qed.

Lemma broadcast_shape_some (op : F -> F -> F) (a b : ndarray F) (s : list nat) :
  bshape (shape a) (shape b) = Some s ->
  exists r, broadcast op a b = Ok r /\ shape r = s.
Proof. intros E. pose proof (broadcast_shape op a b) as Hb. rewrite E in Hb. exact Hb. Qed.

(** [self.gamma * X_norm + self.beta] for scale and shift of the feature
    shape and a normalised batch of any shape. *)
Lemma affine_any_shape (g b xn : ndarray F) (fs : list nat) :
  shape g = fs -> shape b = fs ->
  match bshape fs (shape xn) with
  | None => broadcast fmul g xn = Err ValueError
  | Some r =>
      exists scaled out,
        broadcast fmul g xn = Ok scaled /\ broadcast fadd scaled b = Ok out /\
        shape out = r
  end.
Proof.
  intros Hg Hb. pose proof (broadcast_shape fmul g xn) as H1. rewrite Hg in H1.
  destruct (bshape fs (shape xn)) as [r|] eqn:E; [|exact H1].
  destruct H1 as (scaled & H1 & Hs).
  assert (E2 : bshape (shape scaled) (shape b) = Some r)
    by (rewrite Hs, Hb; apply (bshape_absorb _ _ E)).
  destruct (broadcast_shape_some fadd scaled b E2) as (out & H2 & Ho).
  exists scaled, out. auto.
Qed.

(** An inference call on an initialized instance and an input of any
    shape: it returns exactly when the feature shape can be broadcast
    against the shape of the input. *)
Lemma forward_inference_any_shape (X : ndarray F) (self : t F) (fs : list nat) :
  initialized fs self ->
  match bshape fs (shape X) with
  | None => forward X false self = (self, Err ValueError)
  | Some r => exists out, forward X false self = (self, Ok out) /\ shape out = r
  end.
Proof.
  intros ((g & Hg & Hgs) & (b & Hb & Hbs) & (rm & Hrm & Hrms) & (rv & Hrv & Hrvs)).
  destruct self as [eps mom g0 b0 rm0 rv0]; simpl in *. subst g0 b0 rm0 rv0.
  pose proof (broadcast_shape fsub X rm) as H1. rewrite Hrms, bshape_comm in H1.
  unfold forward, bind, attr, operand, lift, assign, ret, needs_init; simpl.
  destruct (bshape fs (shape X)) as [r|] eqn:E.
  - destruct H1 as (centred & E1 & Hc).
    assert (E2 : bshape (shape centred) (shape (np_sqrt (scalar_r fadd rv eps))) = Some r).
    { unfold np_sqrt, scalar_r. rewrite !shape_np_map, Hc, Hrvs.
      apply (bshape_absorb _ _ E). }
    destruct (broadcast_shape_some fdiv centred _ E2) as (xn & E3 & Hx).
    pose proof (affine_any_shape g b xn Hgs Hbs) as H3. rewrite Hx in H3.
    rewrite (bshape_comm fs r), (bshape_absorb _ _ E) in H3.
    destruct H3 as (scaled & out & E4 & E5 & Ho).
    exists out. rewrite E1. simpl. rewrite E3. simpl. rewrite E4. simpl. rewrite E5.
    split; [reflexivity | exact Ho].
  - rewrite H1. reflexivity.
Qed.

(** The value of a training call on an initialized instance whose running
    statistics could be updated: it returns exactly when the feature shape
    can be broadcast against the shape of the input. *)
Lemma forward_training_outcome (X : ndarray F) (self : t F) (N : nat)
    (fs ts s : list nat) :
  initialized fs self -> shape X = N :: ts -> bshape fs ts = Some s ->
  match bshape fs (N :: ts) with
  | None => snd (forward X true self) = Err ValueError
  | Some r => exists out, snd (forward X true self) = Ok out /\ shape out = r
  end.
Proof.
  intros ((g & Hg & Hgs) & (b & Hb & Hbs) & (rm & Hrm & Hrms) & (rv & Hrv & Hrvs)) HX Hs.
  destruct self as [eps mom g0 b0 rm0 rv0]; simpl in *. subst g0 b0 rm0 rv0.
  destruct (np_mean0_spec X HX) as (bm & Ebm & Hbms & _).
  destruct (np_var0_spec X HX) as (bv & Ebv & Hbvs & _).
  destruct (normalized_spec X bm bv eps HX Hbms Hbvs) as (xn & Exn & Hxs & _).
  pose proof (moving_average_shape mom rm bm) as Hm.
  pose proof (moving_average_shape mom rv bv) as Hv.
  rewrite Hrms, Hbms, Hs in Hm. rewrite Hrvs, Hbvs, Hs in Hv.
  destruct Hm as (rm' & Erm & _). destruct Hv as (rv' & Erv & _).
  pose proof (affine_any_shape g b xn Hgs Hbs) as Ha. rewrite Hxs in Ha.
  unfold forward, bind, attr, operand, lift, assign, ret, needs_init; simpl.
  rewrite Ebm, Ebv, Exn, Erm, Erv. simpl.
  destruct (bshape fs (N :: ts)) as [r|].
  - destruct Ha as (scaled & out & E4 & E5 & Ho). exists out.
    rewrite E4. simpl. rewrite E5. split; [reflexivity | exact Ho].
  - rewrite Ha. reflexivity.
Qed.

End BNOutcome.

(** C4, as the code has it.  No check compares the input with the feature
    shape; what decides is NumPy's broadcasting.  On an instance initialized
    for the feature shape fs, given an input of shape (N,) + ts:

    - the call, training or inference, raises a [ValueError] exactly when
      fs cannot be broadcast against the whole shape (N,) + ts of the
      input, and otherwise returns an array of the broadcast shape of the
      two; when already ts cannot be broadcast against fs, it raises and
      leaves the instance as it was;
    - scale and shift are never assigned, and an inference call assigns
      nothing;
    - when ts can be broadcast against fs, a training call, whether it
      then returns or raises, has stored a running mean and a running
      variance of the broadcast shape of fs and ts. *)
Theorem bn_other_feature_shape {F : Type} `{Scalar F}
    (self : BatchNormalization.t F) (X : ndarray F) (N : nat) (fs ts : list nat) :
  BatchNormalization.initialized fs self ->
  shape X = N :: ts ->
  (bshape fs ts = None ->
   forall training,
     BatchNormalization.forward X training self = (self, Err ValueError)) /\
  (forall training,
     BatchNormalization.gamma (fst (BatchNormalization.forward X training self)) =
       BatchNormalization.gamma self /\
     BatchNormalization.beta (fst (BatchNormalization.forward X training self)) =
       BatchNormalization.beta self) /\
  fst (BatchNormalization.forward X false self) = self /\
  (forall s, bshape fs ts = Some s ->
     exists rm' rv',
       BatchNormalization.running_mean
         (fst (BatchNormalization.forward X true self)) = Some rm' /\
       BatchNormalization.running_var
         (fst (BatchNormalization.forward X true self)) = Some rv' /\
       shape rm' = s /\ shape rv' = s) /\
  (forall training,
     match bshape fs (N :: ts) with
     | None => snd (BatchNormalization.forward X training self) = Err ValueError
     | Some r =>
         exists out,
           snd (BatchNormalization.forward X training self) = Ok out /\ shape out = r
     end).
Proof.
  intros Hself HX.
  pose proof (initialized_no_init Hself) as Hn.
  pose proof (forward_training_any_shape X Hself HX) as Ht.
  split; [|split; [|split; [|split]]].
  - intros Hb training. rewrite Hb in Ht. destruct training; [exact Ht|].
    apply (forward_inference_incompatible X Hself HX Hb).
  - intros training.
    destruct (forward_params_frame X training _ Hn) as (Hg & Hb & _). auto.
  - apply forward_inference_frame; exact Hn.
  - intros s Hs. rewrite Hs in Ht. exact Ht.
  - intros [|].
    + destruct (bshape fs ts) as [s|] eqn:Hs.
      * apply (forward_training_outcome X Hself HX Hs).
      * destruct (bshape_none_batch _ _ N Hs) as [_ ->]. rewrite Ht. reflexivity.
    + pose proof (forward_inference_any_shape X Hself) as Hi. rewrite HX in Hi.
      destruct (bshape fs (N :: ts)) as [r|].
      * destruct Hi as (out & -> & Ho). exists out. split; [reflexivity | exact Ho].
      * rewrite Hi. reflexivity.
Qed.

(** ** Denominators, over the real numbers *)

Section RealFacts.

Local Open Scope R_scope.

Lemma fold_left_Rplus_nonneg (l : list R) (a : R) :
  0 <= a -> Forall (Rle 0) l -> 0 <= fold_left Rplus l a.
Proof.
  revert a; induction l as [|x l IH]; intros a Ha Hl; simpl; [exact Ha|].
  inversion Hl; subst. apply IH; [lra | assumption].
Qed.

Lemma fsum_nonneg (l : list R) : Forall (Rle 0) l -> 0 <= fsum l.
Proof. intros Hl. unfold fsum. apply fold_left_Rplus_nonneg; [simpl; lra | exact Hl]. Qed.

Lemma fsum_squares_nonneg (A : Type) (g : A -> R) (l : list A) :
  0 <= fsum (map (fun i => g i * g i) l).
Proof.
  apply fsum_nonneg. apply Forall_forall. intros x Hx.
  apply in_map_iff in Hx. destruct Hx as (i & <- & _). nra.
Qed.

Lemma sum_of_squares_nonneg (X : ndarray R) (n h w : nat) (chans : list nat) :
  0 <= sum_of_squares X n h w chans.
Proof.
  unfold sum_of_squares. apply (fsum_squares_nonneg (fun i => get X [n; i; h; w])).
Qed.

(** A sum of squares divided by a count. *)
Lemma mean_of_squares_nonneg (g : nat -> R) (d : nat) :
  0 <= fsum (map (fun i => g i * g i) (seq 0 d)) / INR d.
Proof.
  destruct d as [|d].
  - simpl. unfold fsum. simpl. unfold Rdiv. lra.
  - apply Rle_mult_inv_pos; [apply fsum_squares_nonneg|].
    apply lt_0_INR. lia.
Qed.

Lemma batch_var_at_nonneg (X : ndarray R) (N : nat) (idx : list nat) :
  0 <= batch_var_at X N idx.
Proof.
  unfold batch_var_at.
  apply (mean_of_squares_nonneg (fun i => get X (i :: idx) - batch_mean_at X N idx)).
Qed.






End RealFacts.

Section BNReachable.

Import BatchNormalization.


Lemma step_hyperparameters {F : Type} `{Scalar F} (self : t F) (c : call F) :
  epsilon (step self c) = epsilon self /\ momentum (step self c) = momentum self.
Proof.
  destruct c as [X training | g b]; simpl; [|auto].
  destruct (needs_init self) eqn:Hn.
  - rewrite forward_needs_init by assumption.
    destruct (forward_params_frame X training _
                (needs_init_initialize_params (tl (shape X)) self)) as (_ & _ & He & Hm).
    rewrite He, Hm. auto.
  - destruct (forward_params_frame X training _ Hn) as (_ & _ & He & Hm). auto.
Qed.



End BNReachable.


(** * The theorems at concrete inputs *)

(** Evaluation of the model that leaves the real arithmetic symbolic. *)
Ltac run_model :=
  cbv -[Rplus Rminus Rmult Rdiv Ropp Rinv sqrt Rpower IZR INR Rlt Rle].

(** With three channels and the radius 5 of the notebook every window is
    the whole range of channels. *)
Example channel_window_clamped :
  map (channel_window 5%Z 3) [0; 1; 2] = [[0; 1; 2]; [0; 1; 2]; [0; 1; 2]].
Proof. reflexivity. Qed.

(** With the radius 0 the window is the channel itself. *)
Example channel_window_radius_zero :
  map (channel_window 0%Z 3) [0; 1; 2] = [[0]; [1]; [2]].
Proof. reflexivity. Qed.

(** With the radius -3 the end bound of channel 0 is -1, which Python's
    slice counts from the last channel: of four channels the slice [2:-1]
    selects channel 2, where the clamped window of the specification is
    empty. *)
Example sliced_channels_wrap :
  custom_LocalResponseNormalization.sliced_channels
    (custom_LocalResponseNormalization.init (-3)%Z 1%R 1%R 1%R) 4 0 = [2]
  /\ channel_window (-3)%Z 4 0 = [].
Proof. split; reflexivity. Qed.

Lemma lrn_forward_window_formula_witness :
  exists Y, custom_LocalResponseNormalization.forward lrn_default X_1311 = Ok Y /\
    forall n c h w, n < 1 -> c < 3 -> h < 1 -> w < 1 ->
      get Y [n; c; h; w] =
      lrn_formula 1%R (1 / 10000)%R (3 / 4)%R X_1311 n c h w (channel_window 5%Z 3 c).
Proof.
  apply (@lrn_forward_window_formula R _ lrn_default X_1311 1 3 1 1).
  - reflexivity.
  - simpl. lia.
Defined.

(** C5 fails on the code: with [depth_radius=-1] the call is not rejected;
    it returns an array, each window being empty. *)
Lemma lrn_negative_radius_not_rejected :
  (custom_LocalResponseNormalization.depth_radius lrn_negative < 0)%Z /\
  custom_LocalResponseNormalization.forward lrn_negative X_1311 =
    Ok (mk_ndarray [1; 3; 1; 1]
          [1 / Rpower (1 + 1 / 10000 * 0) (3 / 4);
           2 / Rpower (1 + 1 / 10000 * 0) (3 / 4);
           3 / Rpower (1 + 1 / 10000 * 0) (3 / 4)]%R) /\
  ~ (exists e, custom_LocalResponseNormalization.forward lrn_negative X_1311 = Err e).
Proof.
  assert (E : custom_LocalResponseNormalization.forward lrn_negative X_1311 =
              Ok (mk_ndarray [1; 3; 1; 1]
                    [1 / Rpower (1 + 1 / 10000 * 0) (3 / 4);
                     2 / Rpower (1 + 1 / 10000 * 0) (3 / 4);
                     3 / Rpower (1 + 1 / 10000 * 0) (3 / 4)]%R)).
  { run_model. reflexivity. }
  split; [simpl; lia|]. split; [exact E|].
  intros (e & He). rewrite E in He. discriminate.
Qed.

Lemma lrn_negative_radius_returns_witness :
  exists Y, custom_LocalResponseNormalization.forward lrn_negative X_1311 = Ok Y /\
    shape Y = shape X_1311 /\
    forall n c h w, n < 1 -> c < 3 -> h < 1 -> w < 1 ->
      get Y [n; c; h; w] =
      lrn_formula 1%R (1 / 10000)%R (3 / 4)%R X_1311 n c h w
        (custom_LocalResponseNormalization.sliced_channels lrn_negative 3 c) /\
      ((0 <= Z.of_nat c + (-1) / 2 + 1)%Z ->
       custom_LocalResponseNormalization.sliced_channels lrn_negative 3 c = []).
Proof.
  apply (@lrn_negative_radius_returns R _ lrn_negative X_1311 1 3 1 1).
  - simpl. lia.
  - reflexivity.
Defined.

Lemma bn_training_forward_formula_witness :
  exists out self',
    BatchNormalization.forward X_21 true bn_new = (self', Ok out) /\
    shape out = shape X_21 /\
    forall i idx, i < 2 -> in_range [1] idx ->
      get out (i :: idx) =
      bn_formula 1%R 0%R (get X_21 (i :: idx))
        (batch_mean_at X_21 2 idx) (batch_var_at X_21 2 idx) (1 / 100000)%R.
Proof.
  exact (proj2 (@bn_training_forward_formula R _ X_21 2 [1] eq_refl) bn_new
           eq_refl eq_refl).
Defined.

Lemma bn_running_statistics_update_witness :
  exists rm' rv',
    BatchNormalization.running_mean
      (fst (BatchNormalization.forward X_21 true bn_new)) = Some rm' /\
    BatchNormalization.running_var
      (fst (BatchNormalization.forward X_21 true bn_new)) = Some rv' /\
    shape rm' = [1] /\ shape rv' = [1] /\
    forall idx, in_range [1] idx ->
      get rm' idx = ((1 - 9 / 10) * batch_mean_at X_21 2 idx)%R /\
      get rv' idx = (9 / 10 * 1 + (1 - 9 / 10) * batch_var_at X_21 2 idx)%R.
Proof.
  exact (proj2 (@bn_running_statistics_update R _ X_21 2 [1] eq_refl)
           Rmult_0_r Rplus_0_l bn_new eq_refl eq_refl).
Defined.

(** C4 fails on the code: an instance initialized for the feature shape
    (1,), which an inference call on a batch of shape (2, 1) leaves behind,
    accepts a training batch of shape (2, 3); the call returns and the
    running mean and the running variance now have the shape (3,). *)
Lemma bn_broadcast_reshapes_statistics :
  fst (BatchNormalization.forward X_21 false bn_new) = bn_one /\
  BatchNormalization.initialized [1] bn_one /\
  tl (shape X_23) <> [1] /\
  exists out self',
    BatchNormalization.forward X_23 true bn_one = (self', Ok out) /\
    shape out = [2; 3] /\
    option_map (@shape R) (BatchNormalization.running_mean self') = Some [3] /\
    option_map (@shape R) (BatchNormalization.running_var self') = Some [3].
Proof.
  split; [run_model; reflexivity|].
  split; [apply initialized_initialize_params|].
  split; [discriminate|].
  do 2 eexists. split; [run_model; reflexivity|].
  repeat split.
Qed.

Lemma bn_other_feature_shape_witness :
  (* feature shape (1,), batch of shape (2, 3): accepted, statistics reshaped *)
  ((forall training,
      BatchNormalization.gamma (fst (BatchNormalization.forward X_23 training bn_one)) =
        BatchNormalization.gamma bn_one /\
      BatchNormalization.beta (fst (BatchNormalization.forward X_23 training bn_one)) =
        BatchNormalization.beta bn_one) /\
   fst (BatchNormalization.forward X_23 false bn_one) = bn_one /\
   (exists rm' rv',
      BatchNormalization.running_mean
        (fst (BatchNormalization.forward X_23 true bn_one)) = Some rm' /\
      BatchNormalization.running_var
        (fst (BatchNormalization.forward X_23 true bn_one)) = Some rv' /\
      shape rm' = [3] /\ shape rv' = [3]) /\
   (forall training,
      exists out,
        snd (BatchNormalization.forward X_23 training bn_one) = Ok out /\
        shape out = [2; 3])) /\
  (* feature shape (3,), batch of shape (2, 2): rejected, instance unchanged *)
  (forall training,
     BatchNormalization.forward X_22 training bn_three = (bn_three, Err ValueError)) /\
  (* feature shape (2, 3), batch of shape (5, 3): rejected in both modes,
     the training call after it has replaced the running statistics *)
  ((exists rm' rv',
      BatchNormalization.running_mean
        (fst (BatchNormalization.forward X_53 true bn_two_three)) = Some rm' /\
      BatchNormalization.running_var
        (fst (BatchNormalization.forward X_53 true bn_two_three)) = Some rv' /\
      shape rm' = [2; 3] /\ shape rv' = [2; 3]) /\
   (forall training,
      snd (BatchNormalization.forward X_53 training bn_two_three) = Err ValueError)).
Proof.
  pose proof (@bn_other_feature_shape R _ bn_one X_23 2 [1] [3]
                (initialized_initialize_params [1] bn_new) eq_refl)
    as (_ & A2 & A3 & A4 & A5).
  pose proof (@bn_other_feature_shape R _ bn_three X_22 2 [3] [2]
                (initialized_initialize_params [3] bn_new) eq_refl)
    as (B1 & _).
  pose proof (@bn_other_feature_shape R _ bn_two_three X_53 5 [2; 3] [3]
                (initialized_initialize_params [2; 3] bn_new) eq_refl)
    as (_ & _ & _ & C4 & C5).
  split; [|split].
  - split; [exact A2|]. split; [exact A3|]. split; [exact (A4 [3] eq_refl) | exact A5].
  - exact (B1 eq_refl).
  - split; [exact (C4 [2; 3] eq_refl) | exact C5].
Defined.

Lemma bn_lazy_initialisation_once_witness :
  BatchNormalization.forward X_21 true bn_new =
    BatchNormalization.forward X_21 true
      (BatchNormalization.mk (1 / 100000)%R (9 / 10)%R
         (Some (np_ones [1])) (Some (np_zeros [1]))
         (Some (np_zeros [1])) (Some (np_ones [1]))) /\
  BatchNormalization.gamma (fst (BatchNormalization.forward X_21 true bn_new)) =
    Some (np_ones [1]) /\
  BatchNormalization.beta (fst (BatchNormalization.forward X_21 true bn_new)) =
    Some (np_zeros [1]) /\
  BatchNormalization.running_mean (fst (BatchNormalization.forward X_21 false bn_new)) =
    Some (np_zeros [1]) /\
  BatchNormalization.running_var (fst (BatchNormalization.forward X_21 false bn_new)) =
    Some (np_ones [1]) /\
  forall later : BatchNormalization.t R,
    later = BatchNormalization.run
              (fst (BatchNormalization.forward X_21 true bn_new))
              [BatchNormalization.UpdateParams g_two s_three;
               BatchNormalization.Forward X_21 true] ->
    exists g b,
      BatchNormalization.gamma later = Some g /\
      BatchNormalization.beta later = Some b /\
      BatchNormalization.gamma
        (fst (BatchNormalization.forward X_21 true later)) = Some g /\
      BatchNormalization.beta
        (fst (BatchNormalization.forward X_21 true later)) = Some b /\
      kept_or_averaged (BatchNormalization.momentum later)
        (BatchNormalization.running_mean later)
        (BatchNormalization.running_mean
           (fst (BatchNormalization.forward X_21 true later)))
        (np_mean0 X_21) /\
      kept_or_averaged (BatchNormalization.momentum later)
        (BatchNormalization.running_var later)
        (BatchNormalization.running_var
           (fst (BatchNormalization.forward X_21 true later)))
        (np_var0 X_21).
Proof.
  exact (@bn_lazy_initialisation_once R _ bn_new X_21 true
           [BatchNormalization.UpdateParams g_two s_three;
            BatchNormalization.Forward X_21 true] X_21 true eq_refl eq_refl).
Defined.

Lemma bn_inference_forward_frame_witness :
  (forall X : ndarray R,
      fst (BatchNormalization.forward X false bn_one) = bn_one /\
      BatchNormalization.forward X false
        (fst (BatchNormalization.forward X false bn_one)) =
      BatchNormalization.forward X false bn_one) /\
  (forall (X : ndarray R) (N : nat),
      shape X = [N; 1] ->
      exists out,
        BatchNormalization.forward X false bn_one = (bn_one, Ok out) /\
        shape out = shape X /\
        forall i idx, i < N -> in_range [1] idx ->
          get out (i :: idx) =
          bn_formula (get (np_ones [1]) idx) (get (np_zeros [1]) idx) (get X (i :: idx))
            (get (np_zeros [1]) idx) (get (np_ones [1]) idx) (1 / 100000)%R).
Proof.
  apply (@bn_inference_forward_frame R _ bn_one [1]
           (np_ones [1]) (np_zeros [1]) (np_zeros [1]) (np_ones [1]));
    reflexivity.
Defined.

Lemma forward_preserves_shape_witness :
  (exists Y, custom_LocalResponseNormalization.forward lrn_default X_1311 = Ok Y /\
             shape Y = shape X_1311 /\ well_formed Y) /\
  (exists out self',
      BatchNormalization.forward X_21 true bn_new = (self', Ok out) /\
      shape out = shape X_21 /\ well_formed out) /\
  (exists out self',
      BatchNormalization.forward X_21 false bn_one = (self', Ok out) /\
      shape out = shape X_21 /\ well_formed out).
Proof.
  split; [|split].
  - apply (proj1 (@forward_preserves_shape R _) lrn_default X_1311 1 3 1 1).
    reflexivity.
  - apply (proj2 (@forward_preserves_shape R _) bn_new X_21 true 2 [1]).
    + reflexivity.
    + left. split; reflexivity.
  - apply (proj2 (@forward_preserves_shape R _) bn_one X_21 false 2 [1]).
    + reflexivity.
    + right. apply initialized_initialize_params.
Defined.


(** The variance is the population variance: of the batch [[2], [-2]], of
    mean 0, it is (4 + 4) / 2 = 4, where the divisor N - 1 would give 8. *)
Example batch_variance_population :
  exists v, np_var0 X_spread = Ok v /\ shape v = [1] /\ get v [0] = 4%R.
Proof.
  eexists. split; [run_model; reflexivity|]. split; [reflexivity|].
  run_model. simpl INR. field.
Qed.


(** * Further properties of the two layers *)

(** ** Local response normalisation: inputs, radii, locality *)

Section LRNMore.

Context {F : Type} `{Scalar F}.

Import custom_LocalResponseNormalization.

Lemma sliced_channels_below (self : t F) (C c i : nat) :
  In i (sliced_channels self C c) -> i < C.
Proof.
  rewrite sliced_channels_eq, in_seq.
  pose proof (slice_adjust_bound (window_start self c) (window_end self C c) C). lia.
Qed.

Lemma channel_window_single (radius : Z) (C c : nat) :
  (0 <= radius <= 1)%Z -> c < C -> channel_window radius C c = [c].
Proof.
  intros Hr Hc. unfold channel_window.
  assert (Hh : (radius / 2 = 0)%Z) by (Z.div_mod_to_equations; lia).
  rewrite Hh.
  replace (Z.to_nat (Z.max 0 (Z.of_nat c - 0))) with c by lia.
  replace (Z.to_nat (Z.min (Z.of_nat C) (Z.of_nat c + 0 + 1) - Z.max 0 (Z.of_nat c - 0)))
    with 1 by lia.
  reflexivity.
Qed.

Lemma channel_window_all (radius : Z) (C c : nat) :
  (2 * (Z.of_nat C - 1) <= radius)%Z -> c < C -> channel_window radius C c = seq 0 C.
Proof.
  intros Hr Hc. unfold channel_window.
  assert (Hh : (Z.of_nat C - 1 <= radius / 2)%Z) by (Z.div_mod_to_equations; lia).
  replace (Z.max 0 (Z.of_nat c - radius / 2)) with 0%Z by lia.
  replace (Z.min (Z.of_nat C) (Z.of_nat c + radius / 2 + 1)) with (Z.of_nat C) by lia.
  rewrite Z.sub_0_r, Nat2Z.id. reflexivity.
Qed.

End LRNMore.

(** [forward] returns an array exactly for the inputs of four axes: the
    unpacking of [X.shape] raises a [ValueError] for any other number of
    axes, and nothing else in the method can raise. *)
Theorem lrn_forward_four_axes {F : Type} `{Scalar F}
    (self : custom_LocalResponseNormalization.t F) (X : ndarray F) :
  (length (shape X) = 4 ->
   exists Y, custom_LocalResponseNormalization.forward self X = Ok Y /\
             shape Y = shape X) /\
  (length (shape X) <> 4 ->
   custom_LocalResponseNormalization.forward self X = Err ValueError).
Proof.
  split.
  - intros Hl.
    destruct (shape X) as [|N [|C [|H0 [|W [|? ?]]]]] eqn:Hs; try discriminate.
    destruct (forward_spec self X Hs) as (Y & HY & HsY & _).
    exists Y. split; [exact HY | congruence].
  - intros Hl. unfold custom_LocalResponseNormalization.forward.
    destruct (shape X) as [|N [|C [|H0 [|W [|? ?]]]]]; try reflexivity.
    exfalso. apply Hl. reflexivity.
Qed.

(** With a radius of 0 or 1 (r // 2 = 0) the window of every channel is the
    channel itself: each element is divided by
    (bias + alpha * X[n,c,h,w]^2)^beta. *)
Theorem lrn_forward_radius_below_two {F : Type} `{Scalar F}
    (self : custom_LocalResponseNormalization.t F) (X : ndarray F) (N C H0 W : nat) :
  (0 <= custom_LocalResponseNormalization.depth_radius self <= 1)%Z ->
  shape X = [N; C; H0; W] ->
  exists Y, custom_LocalResponseNormalization.forward self X = Ok Y /\
    forall n c h w, n < N -> c < C -> h < H0 -> w < W ->
      get Y [n; c; h; w] =
      fdiv (get X [n; c; h; w])
           (fpow (fadd (custom_LocalResponseNormalization.bias self)
                       (fmul (custom_LocalResponseNormalization.alpha self)
                             (fadd fzero (fmul (get X [n; c; h; w]) (get X [n; c; h; w])))))
                 (custom_LocalResponseNormalization.beta self)).
Proof.
  intros Hr Hs.
  destruct (forward_spec self X Hs) as (Y & HY & _ & Hg).
  exists Y. split; [exact HY|].
  intros n c h w Hn Hc Hh Hw. rewrite Hg by assumption.
  rewrite sliced_channels_window by (assumption || lia).
  rewrite channel_window_single by assumption. reflexivity.
Qed.

(** With a radius of at least 2 * (C - 1) the window of every channel is
    the whole range of channels: each element is divided by the same power
    of bias + alpha * (the sum of the squares over all the channels at its
    position). *)
Theorem lrn_forward_radius_covers_channels {F : Type} `{Scalar F}
    (self : custom_LocalResponseNormalization.t F) (X : ndarray F) (N C H0 W : nat) :
  (2 * (Z.of_nat C - 1) <= custom_LocalResponseNormalization.depth_radius self)%Z ->
  shape X = [N; C; H0; W] ->
  exists Y, custom_LocalResponseNormalization.forward self X = Ok Y /\
    forall n c h w, n < N -> c < C -> h < H0 -> w < W ->
      get Y [n; c; h; w] =
      lrn_formula (custom_LocalResponseNormalization.bias self)
        (custom_LocalResponseNormalization.alpha self)
        (custom_LocalResponseNormalization.beta self) X n c h w (seq 0 C).
Proof.
  intros Hr Hs.
  destruct (forward_spec self X Hs) as (Y & HY & _ & Hg).
  exists Y. split; [exact HY|].
  intros n c h w Hn Hc Hh Hw. rewrite Hg by assumption.
  rewrite sliced_channels_window by (assumption || lia).
  rewrite channel_window_all by assumption. reflexivity.
Qed.

(** The result at a position of an image depends on nothing but the values
    of the channels of that image at that position: two inputs, possibly of
    different batch sizes, that agree there give the same results there,
    whatever the radius. *)
Theorem lrn_forward_local {F : Type} `{Scalar F}
    (self : custom_LocalResponseNormalization.t F) (X X' : ndarray F)
    (N N' C H0 W n n' h w : nat) :
  shape X = [N; C; H0; W] -> shape X' = [N'; C; H0; W] ->
  n < N -> n' < N' -> h < H0 -> w < W ->
  (forall c, c < C -> get X [n; c; h; w] = get X' [n'; c; h; w]) ->
  exists Y Y',
    custom_LocalResponseNormalization.forward self X = Ok Y /\
    custom_LocalResponseNormalization.forward self X' = Ok Y' /\
    forall c, c < C -> get Y [n; c; h; w] = get Y' [n'; c; h; w].
Proof.
  intros Hs Hs' Hn Hn' Hh Hw Heq.
  destruct (forward_spec self X Hs) as (Y & HY & _ & Hg).
  destruct (forward_spec self X' Hs') as (Y' & HY' & _ & Hg').
  exists Y, Y'. split; [exact HY|]. split; [exact HY'|].
  intros c Hc. rewrite Hg, Hg' by assumption.
  unfold lrn_formula, sum_of_squares. rewrite (Heq c Hc).
  assert (E : map (fun i => fmul (get X [n; i; h; w]) (get X [n; i; h; w]))
                (custom_LocalResponseNormalization.sliced_channels self C c) =
              map (fun i => fmul (get X' [n'; i; h; w]) (get X' [n'; i; h; w]))
                (custom_LocalResponseNormalization.sliced_channels self C c)).
  { apply map_ext_in. intros i Hi.
    apply sliced_channels_below in Hi. rewrite (Heq i Hi). reflexivity. }
  rewrite E. reflexivity.
Qed.

(** ** Batch normalisation: first calls, compositions, histories *)

(** A training call on an array without axes raises at [np.mean(X, axis=0)],
    after the lazy initialisation: an instance that was not initialized is
    left initialized for the empty feature shape. *)
Theorem bn_training_without_batch_axis {F : Type} `{Scalar F}
    (self : BatchNormalization.t F) (X : ndarray F) :
  shape X = [] ->
  BatchNormalization.forward X true self =
    (if BatchNormalization.needs_init self
     then BatchNormalization.initialize_params [] self
     else self,
     Err AxisError).
Proof.
  intros Hs.
  unfold BatchNormalization.forward, BatchNormalization.bind, BatchNormalization.attr,
    BatchNormalization.lift, np_mean0.
  rewrite Hs. destruct (BatchNormalization.needs_init self); reflexivity.
Qed.

(** An inference call may come first: on an instance whose scale and shift
    are unset it initializes the instance for the input's feature shape,
    leaves it exactly so, and returns 1 * ((X - 0) / sqrt(1 + epsilon)) + 0
    element by element. *)
Theorem bn_inference_first {F : Type} `{Scalar F}
    (self : BatchNormalization.t F) (X : ndarray F) (N : nat) (fs : list nat) :
  BatchNormalization.gamma self = None ->
  BatchNormalization.beta self = None ->
  shape X = N :: fs ->
  exists out,
    BatchNormalization.forward X false self =
      (BatchNormalization.initialize_params fs self, Ok out) /\
    shape out = N :: fs /\
    forall i idx, i < N -> in_range fs idx ->
      get out (i :: idx) =
      bn_formula fone fzero (get X (i :: idx)) fzero fone
        (BatchNormalization.epsilon self).
Proof.
  intros Hg Hb HX.
  assert (Hn : BatchNormalization.needs_init self = true)
    by (unfold BatchNormalization.needs_init; rewrite Hg; reflexivity).
  rewrite (forward_needs_init X false self Hn), HX. simpl tl.
  destruct (forward_inference_spec X (BatchNormalization.initialize_params fs self) HX
              eq_refl eq_refl eq_refl eq_refl eq_refl eq_refl eq_refl eq_refl)
    as (out & Hfw & Hos & Hog).
  exists out. split; [exact Hfw|]. split; [exact Hos|].
  intros i idx Hi Hr. rewrite Hog by assumption.
  unfold np_ones, np_zeros. rewrite !get_np_full by assumption. reflexivity.
Qed.

(** [update_params(g, s)] followed by [forward]: on an initialized instance
    and with arrays of the feature shape, the next call, training or
    inference, returns g * X_norm + s; the running statistics an inference
    call reads are those of before the update. *)
Theorem bn_update_params_then_forward {F : Type} `{Scalar F}
    (self : BatchNormalization.t F) (g s X : ndarray F) (N : nat) (fs : list nat)
    (rm rv : ndarray F) :
  BatchNormalization.initialized fs self ->
  BatchNormalization.running_mean self = Some rm ->
  BatchNormalization.running_var self = Some rv ->
  shape g = fs -> shape s = fs -> shape X = N :: fs ->
  (exists out self',
      BatchNormalization.forward X true (BatchNormalization.update_params g s self) =
        (self', Ok out) /\
      forall i idx, i < N -> in_range fs idx ->
        get out (i :: idx) =
        bn_formula (get g idx) (get s idx) (get X (i :: idx))
          (batch_mean_at X N idx) (batch_var_at X N idx)
          (BatchNormalization.epsilon self)) /\
  (exists out,
      BatchNormalization.forward X false (BatchNormalization.update_params g s self) =
        (BatchNormalization.update_params g s self, Ok out) /\
      forall i idx, i < N -> in_range fs idx ->
        get out (i :: idx) =
        bn_formula (get g idx) (get s idx) (get X (i :: idx))
          (get rm idx) (get rv idx) (BatchNormalization.epsilon self)).
Proof.
  intros (_ & _ & (rm0 & Hrm0 & Hrms) & (rv0 & Hrv0 & Hrvs)) Hrm Hrv Hg Hs HX.
  assert (rm0 = rm) by congruence. assert (rv0 = rv) by congruence. subst rm0 rv0.
  split.
  - destruct (forward_training_spec X (BatchNormalization.update_params g s self) HX
                eq_refl Hg eq_refl Hs Hrm Hrms Hrv Hrvs)
      as (out & rm' & rv' & Hfw & _ & _ & _ & Hog & _).
    exists out. eexists. split; [exact Hfw | exact Hog].
  - destruct (forward_inference_spec X (BatchNormalization.update_params g s self) HX
                eq_refl Hg eq_refl Hs Hrm Hrms Hrv Hrvs)
      as (out & Hfw & _ & Hog).
    exists out. split; [exact Hfw | exact Hog].
Qed.

(** A training call changes what the next inference call computes: after a
    training call on X, an inference call on X' normalises with
    momentum * running + (1 - momentum) * batch statistics of X. *)
Theorem bn_training_then_inference {F : Type} `{Scalar F}
    (self : BatchNormalization.t F) (X X' : ndarray F) (N N' : nat) (fs : list nat)
    (g b rm rv : ndarray F) :
  shape X = N :: fs -> shape X' = N' :: fs ->
  BatchNormalization.gamma self = Some g -> shape g = fs ->
  BatchNormalization.beta self = Some b -> shape b = fs ->
  BatchNormalization.running_mean self = Some rm -> shape rm = fs ->
  BatchNormalization.running_var self = Some rv -> shape rv = fs ->
  exists out',
    snd (BatchNormalization.forward X' false
           (fst (BatchNormalization.forward X true self))) = Ok out' /\
    forall i idx, i < N' -> in_range fs idx ->
      get out' (i :: idx) =
      bn_formula (get g idx) (get b idx) (get X' (i :: idx))
        (fadd (fmul (BatchNormalization.momentum self) (get rm idx))
              (fmul (fsub fone (BatchNormalization.momentum self))
                    (batch_mean_at X N idx)))
        (fadd (fmul (BatchNormalization.momentum self) (get rv idx))
              (fmul (fsub fone (BatchNormalization.momentum self))
                    (batch_var_at X N idx)))
        (BatchNormalization.epsilon self).
Proof.
  intros HX HX' Hg Hgs Hb Hbs Hrm Hrms Hrv Hrvs.
  destruct (forward_training_spec X self HX Hg Hgs Hb Hbs Hrm Hrms Hrv Hrvs)
    as (out & rm' & rv' & Hfw & _ & Hs1 & Hs2 & _ & Hm & Hv).
  rewrite Hfw. simpl fst.
  destruct (forward_inference_spec X'
              (BatchNormalization.mk (BatchNormalization.epsilon self)
                 (BatchNormalization.momentum self) (Some g) (Some b) (Some rm') (Some rv'))
              HX' eq_refl Hgs eq_refl Hbs eq_refl Hs1 eq_refl Hs2)
    as (out' & Hfw' & _ & Hog').
  exists out'. rewrite Hfw'. split; [reflexivity|].
  intros i idx Hi Hr. rewrite Hog' by assumption. simpl.
  rewrite Hm, Hv by assumption. reflexivity.
Qed.

(** A failing call is not undone.  After [update_params] with a scale whose
    shape cannot be broadcast against the batch, a training call on an
    otherwise matching input raises at [self.gamma * X_norm], when the
    running mean and the running variance have already been replaced by
    their moving averages. *)
Theorem bn_training_error_keeps_statistics {F : Type} `{Scalar F}
    (self : BatchNormalization.t F) (g s X : ndarray F) (N : nat) (fs : list nat)
    (rm rv : ndarray F) :
  BatchNormalization.running_mean self = Some rm -> shape rm = fs ->
  BatchNormalization.running_var self = Some rv -> shape rv = fs ->
  shape X = N :: fs ->
  bshape (shape g) (N :: fs) = None ->
  exists rm' rv',
    BatchNormalization.forward X true (BatchNormalization.update_params g s self) =
      (BatchNormalization.mk (BatchNormalization.epsilon self)
         (BatchNormalization.momentum self) (Some g) (Some s) (Some rm') (Some rv'),
       Err ValueError) /\
    forall idx, in_range fs idx ->
      get rm' idx =
        fadd (fmul (BatchNormalization.momentum self) (get rm idx))
             (fmul (fsub fone (BatchNormalization.momentum self))
                   (batch_mean_at X N idx)) /\
      get rv' idx =
        fadd (fmul (BatchNormalization.momentum self) (get rv idx))
             (fmul (fsub fone (BatchNormalization.momentum self))
                   (batch_var_at X N idx)).
Proof.
  intros Hrm Hrms Hrv Hrvs HX Hbad.
  destruct self as [eps mom g0 b0 rm0 rv0]; simpl in *. subst rm0 rv0.
  destruct (np_mean0_spec X HX) as (bm & Ebm & Hbms & Hbmg).
  destruct (np_var0_spec X HX) as (bv & Ebv & Hbvs & Hbvg).
  destruct (normalized_spec X bm bv eps HX Hbms Hbvs) as (xn & Exn & Hxs & _).
  destruct (moving_average_spec mom rm bm Hrms Hbms) as (rm' & Erm & _ & Hrmg).
  destruct (moving_average_spec mom rv bv Hrvs Hbvs) as (rv' & Erv & _ & Hrvg).
  exists rm', rv'. split.
  - unfold BatchNormalization.forward, BatchNormalization.bind, BatchNormalization.attr,
      BatchNormalization.operand, BatchNormalization.lift, BatchNormalization.assign,
      BatchNormalization.ret, BatchNormalization.needs_init,
      BatchNormalization.update_params; simpl.
    rewrite Ebm, Ebv, Exn, Erm, Erv. simpl.
    unfold broadcast at 1. rewrite Hxs, Hbad. reflexivity.
  - intros idx Hr. rewrite Hrmg, Hrvg, Hbmg, Hbvg by assumption. split; reflexivity.
Qed.

Section BNHistories.

Context {F : Type} `{Scalar F}.

Import BatchNormalization.

Lemma step_fits_initialized (fs : list nat) (self : t F) (c : call F) :
  initialized fs self -> call_fits fs c -> initialized fs (step self c).
Proof.
  intros Hself Hc. destruct c as [X training | g b]; simpl in *.
  - destruct Hc as (N & HX).
    destruct Hself as ((g & Hg & Hgs) & (b & Hb & Hbs) & (rm & Hrm & Hrms) & (rv & Hrv & Hrvs)).
    destruct training.
    + destruct (forward_training_spec X self HX Hg Hgs Hb Hbs Hrm Hrms Hrv Hrvs)
        as (out & rm' & rv' & Hfw & _ & Hs1 & Hs2 & _).
      rewrite Hfw. simpl. unfold initialized; simpl.
      repeat split; eexists; split; try reflexivity; assumption.
    + rewrite forward_inference_frame
        by (unfold needs_init; rewrite Hg, Hb; reflexivity).
      unfold initialized. repeat split; eexists; split; eassumption.
  - destruct Hc as (Hgs & Hbs).
    destruct Hself as (_ & _ & Hrm & Hrv).
    unfold initialized, update_params; simpl.
    split; [eexists; split; [reflexivity | assumption]|].
    split; [eexists; split; [reflexivity | assumption]|].
    split; assumption.
Qed.

Lemma run_fits_initialized (fs : list nat) (cs : list (call F)) (self : t F) :
  initialized fs self -> Forall (call_fits fs) cs -> initialized fs (run self cs).
Proof.
  revert self; induction cs as [|c cs IH]; intros self Hself Hcs; simpl; [exact Hself|].
  inversion Hcs; subst. apply IH; [|assumption].
  apply step_fits_initialized; assumption.
Qed.

Lemma forward_fits_returns (fs : list nat) (self : t F) (X : ndarray F)
    (training : bool) (N : nat) :
  initialized fs self -> shape X = N :: fs ->
  exists out self', forward X training self = (self', Ok out) /\ shape out = shape X.
Proof.
  intros ((g & Hg & Hgs) & (b & Hb & Hbs) & (rm & Hrm & Hrms) & (rv & Hrv & Hrvs)) HX.
  destruct training.
  - destruct (forward_training_spec X self HX Hg Hgs Hb Hbs Hrm Hrms Hrv Hrvs)
      as (out & rm' & rv' & Hfw & Hos & _).
    exists out. eexists. split; [exact Hfw | congruence].
  - destruct (forward_inference_spec X self HX Hg Hgs Hb Hbs Hrm Hrms Hrv Hrvs)
      as (out & Hfw & Hos & _).
    exists out, self. split; [exact Hfw | congruence].
Qed.

End BNHistories.

(** With one feature shape throughout, no call fails.  When the first call
    on an instance whose scale and shift are unset is a [forward] on a batch
    of feature shape fs, and every later call agrees with fs (batches of
    entries of shape fs, [update_params] with arrays of shape fs), the
    instance stays initialized for fs and the next [forward] on such a
    batch, training or inference, returns an array of the batch's shape. *)
Theorem bn_consistent_shapes_never_fail {F : Type} `{Scalar F}
    (self : BatchNormalization.t F) (X0 : ndarray F) (training0 : bool) (N0 : nat)
    (fs : list nat) (cs : list (BatchNormalization.call F))
    (X : ndarray F) (training : bool) (N : nat) :
  BatchNormalization.gamma self = None ->
  BatchNormalization.beta self = None ->
  shape X0 = N0 :: fs ->
  Forall (call_fits fs) cs ->
  shape X = N :: fs ->
  BatchNormalization.initialized fs
    (BatchNormalization.run self (BatchNormalization.Forward X0 training0 :: cs)) /\
  exists out self',
    BatchNormalization.forward X training
      (BatchNormalization.run self (BatchNormalization.Forward X0 training0 :: cs)) =
    (self', Ok out) /\
    shape out = shape X.
Proof.
  intros Hg Hb HX0 Hcs HX.
  assert (Hn : BatchNormalization.needs_init self = true)
    by (unfold BatchNormalization.needs_init; rewrite Hg; reflexivity).
  assert (H1 : BatchNormalization.initialized fs
                 (BatchNormalization.step self (BatchNormalization.Forward X0 training0))).
  { simpl. rewrite (forward_needs_init X0 training0 self Hn), HX0. simpl tl.
    change (BatchNormalization.initialized fs
              (BatchNormalization.step (BatchNormalization.initialize_params fs self)
                 (BatchNormalization.Forward X0 training0))).
    apply step_fits_initialized; [apply initialized_initialize_params|].
    exists N0. exact HX0. }
  assert (H2 : BatchNormalization.initialized fs
                 (BatchNormalization.run self
                    (BatchNormalization.Forward X0 training0 :: cs))).
  { simpl. apply run_fits_initialized; assumption. }
  split; [exact H2|].
  apply (forward_fits_returns X training H2 HX).
Qed.

(** Once scale and shift are set, no call initializes again.  After any
    history of calls the scale and the shift are the arguments of its last
    [update_params], or the arrays found when it has none: [forward] never
    assigns them.  And a further [forward] leaves each running statistic as
    it found it or as the moving average of the array it found with the
    batch statistic, never as a fresh array. *)
Theorem bn_forward_never_reinitialises {F : Type} `{Scalar F}
    (self : BatchNormalization.t F) (g b : ndarray F)
    (cs : list (BatchNormalization.call F)) (X : ndarray F) (training : bool) :
  BatchNormalization.gamma self = Some g ->
  BatchNormalization.beta self = Some b ->
  BatchNormalization.gamma (BatchNormalization.run self cs) =
    Some (fst (last_params g b cs)) /\
  BatchNormalization.beta (BatchNormalization.run self cs) =
    Some (snd (last_params g b cs)) /\
  kept_or_averaged (BatchNormalization.momentum (BatchNormalization.run self cs))
    (BatchNormalization.running_mean (BatchNormalization.run self cs))
    (BatchNormalization.running_mean
       (fst (BatchNormalization.forward X training (BatchNormalization.run self cs))))
    (np_mean0 X) /\
  kept_or_averaged (BatchNormalization.momentum (BatchNormalization.run self cs))
    (BatchNormalization.running_var (BatchNormalization.run self cs))
    (BatchNormalization.running_var
       (fst (BatchNormalization.forward X training (BatchNormalization.run self cs))))
    (np_var0 X).
Proof.
  intros Hg Hb.
  assert (Hrun : BatchNormalization.gamma (BatchNormalization.run self cs) =
                   Some (fst (last_params g b cs)) /\
                 BatchNormalization.beta (BatchNormalization.run self cs) =
                   Some (snd (last_params g b cs))).
  { revert self g b Hg Hb. unfold BatchNormalization.run, last_params.
    induction cs as [|c cs IH]; intros self g b Hg Hb; simpl; [auto|].
    destruct c as [X0 training0 | g' b']; simpl.
    - destruct (forward_keeps_arrays X0 training0 self Hg Hb) as (Hg' & Hb' & _).
      apply IH; assumption.
    - apply IH; reflexivity. }
  destruct Hrun as (Hg' & Hb').
  split; [exact Hg'|]. split; [exact Hb'|].
  destruct (forward_keeps_arrays X training _ Hg' Hb') as (_ & _ & Hm & Hv).
  split; assumption.
Qed.

(** No call assigns [epsilon] or [momentum]: after any history they are
    those given to [__init__]. *)
Theorem bn_hyperparameters_kept {F : Type} `{Scalar F}
    (eps mom : F) (cs : list (BatchNormalization.call F)) :
  BatchNormalization.epsilon
    (BatchNormalization.run (BatchNormalization.init eps mom) cs) = eps /\
  BatchNormalization.momentum
    (BatchNormalization.run (BatchNormalization.init eps mom) cs) = mom.
Proof.
  assert (Hgen : forall self : BatchNormalization.t F,
             BatchNormalization.epsilon (BatchNormalization.run self cs) =
               BatchNormalization.epsilon self /\
             BatchNormalization.momentum (BatchNormalization.run self cs) =
               BatchNormalization.momentum self).
  { induction cs as [|c cs IH]; intros self; simpl; [auto|].
    destruct (IH (BatchNormalization.step self c)) as (He & Hm).
    destruct (step_hyperparameters self c) as (He' & Hm').
    split; congruence. }
  apply (Hgen (BatchNormalization.init eps mom)).
Qed.

(** ** Batch statistics of the output, over the real numbers *)

Section RealSums.

Local Open Scope R_scope.

Lemma fold_left_Rplus_acc (l : list R) (a : R) :
  fold_left Rplus l a = a + fold_left Rplus l 0.
Proof.
  revert a; induction l as [|x l IH]; intros a; simpl; [lra|].
  rewrite (IH (a + x)), (IH (0 + x)). lra.
Qed.

Lemma fsum_cons (x : R) (l : list R) : fsum (x :: l) = x + fsum l.
Proof.
  unfold fsum; simpl. rewrite fold_left_Rplus_acc. lra.
Qed.

Lemma fsum_map_affine (A : Type) (f : A -> R) (a b : R) (l : list A) :
  fsum (map (fun i => a * f i + b) l) = a * fsum (map f l) + INR (length l) * b.
Proof.
  induction l as [|x l IH].
  - unfold fsum; simpl. lra.
  - cbn [map length]. rewrite !fsum_cons, IH, S_INR. lra.
Qed.

Lemma fsum_map_scale (A : Type) (f : A -> R) (k : R) (l : list A) :
  fsum (map (fun i => k * f i) l) = k * fsum (map f l).
Proof.
  induction l as [|x l IH].
  - unfold fsum; simpl. lra.
  - cbn [map]. rewrite !fsum_cons, IH. lra.
Qed.

(** The batch mean and variance of gain * (x - mean) / s + shift. *)
Lemma normalised_batch_statistics (x : nat -> R) (N : nat) (gain shift s : R) :
  (0 < N)%nat ->
  let m := fsum (map x (seq 0 N)) / INR N in
  let v := fsum (map (fun i => (x i - m) * (x i - m)) (seq 0 N)) / INR N in
  let y := fun i => gain * ((x i - m) / s) + shift in
  fsum (map y (seq 0 N)) / INR N = shift /\
  (s <> 0 ->
   fsum (map (fun i => (y i - shift) * (y i - shift)) (seq 0 N)) / INR N =
   gain * gain * (v / (s * s))).
Proof.
  intros HN m v y.
  assert (HNR : INR N <> 0) by (apply not_0_INR; lia).
  split.
  - assert (E : map y (seq 0 N) =
                map (fun i => (gain * / s) * x i + (shift - gain * m * / s)) (seq 0 N)).
    { apply map_ext. intros i. unfold y, Rdiv. ring. }
    rewrite E, fsum_map_affine, length_seq. unfold m.
    set (total := fsum (map x (seq 0 N))). set (t := / s).
    field. exact HNR.
  - intros Hs.
    assert (E : map (fun i => (y i - shift) * (y i - shift)) (seq 0 N) =
                map (fun i => (gain * gain * / (s * s)) * ((x i - m) * (x i - m)))
                  (seq 0 N)).
    { apply map_ext. intros i. unfold y. field. exact Hs. }
    rewrite E, fsum_map_scale. unfold v. field. split; assumption.
Qed.

End RealSums.

(** Over the real numbers, a training call on a batch of at least one entry
    returns, for every feature, values whose mean over the batch is the
    shift and, with epsilon > 0, whose population variance over the batch
    is scale^2 * var / (var + epsilon), var being the batch variance of the
    input: zero mean and almost unit variance before the affine step. *)
Theorem bn_training_output_statistics
    (self : BatchNormalization.t R) (X : ndarray R) (N : nat) (fs : list nat)
    (g b rm rv : ndarray R) :
  BatchNormalization.gamma self = Some g -> shape g = fs ->
  BatchNormalization.beta self = Some b -> shape b = fs ->
  BatchNormalization.running_mean self = Some rm -> shape rm = fs ->
  BatchNormalization.running_var self = Some rv -> shape rv = fs ->
  shape X = N :: fs -> 0 < N ->
  (0 < BatchNormalization.epsilon self)%R ->
  exists out self',
    BatchNormalization.forward X true self = (self', Ok out) /\
    forall idx, in_range fs idx ->
      batch_mean_at out N idx = get b idx /\
      batch_var_at out N idx =
        (get g idx * get g idx *
         (batch_var_at X N idx /
          (batch_var_at X N idx + BatchNormalization.epsilon self)))%R.
Proof.
  intros Hg Hgs Hb Hbs Hrm Hrms Hrv Hrvs HX HN Heps.
  destruct (forward_training_spec X self HX Hg Hgs Hb Hbs Hrm Hrms Hrv Hrvs)
    as (out & rm' & rv' & Hfw & _ & _ & _ & Hog & _).
  exists out. eexists. split; [exact Hfw|].
  intros idx Hr.
  set (eps := BatchNormalization.epsilon self) in *.
  set (v := batch_var_at X N idx).
  assert (Hv : (0 <= v)%R) by apply batch_var_at_nonneg.
  assert (Hs : (sqrt (v + eps) <> 0)%R).
  { apply Rgt_not_eq. apply sqrt_lt_R0. lra. }
  destruct (normalised_batch_statistics (fun i => get X (i :: idx)) (get g idx)
              (get b idx) (sqrt (v + eps)) HN) as (Hmean & Hvar).
  specialize (Hvar Hs).
  assert (Hout : map (fun i => get out (i :: idx)) (seq 0 N) =
                 map (fun i =>
                        (get g idx *
                         ((get X (i :: idx) - batch_mean_at X N idx) / sqrt (v + eps)) +
                         get b idx)%R) (seq 0 N)).
  { apply map_ext_in. intros i Hi. apply in_seq in Hi.
    rewrite Hog by (assumption || lia). reflexivity. }
  assert (Hm : batch_mean_at out N idx = get b idx).
  { unfold batch_mean_at at 1. rewrite Hout. exact Hmean. }
  split; [exact Hm|].
  unfold batch_var_at at 1. rewrite Hm.
  assert (Hsq : map (fun i => fmul (fsub (get out (i :: idx)) (get b idx))
                                   (fsub (get out (i :: idx)) (get b idx)))
                  (seq 0 N) =
                map (fun i =>
                       ((get g idx *
                         ((get X (i :: idx) - batch_mean_at X N idx) / sqrt (v + eps)) +
                         get b idx - get b idx) *
                        (get g idx *
                         ((get X (i :: idx) - batch_mean_at X N idx) / sqrt (v + eps)) +
                         get b idx - get b idx))%R) (seq 0 N)).
  { apply map_ext_in. intros i Hi. apply in_seq in Hi.
    rewrite Hog by (assumption || lia). reflexivity. }
  rewrite Hsq.
  etransitivity; [exact Hvar|].
  rewrite sqrt_sqrt by lra. reflexivity.
Qed.

(** Over the real numbers and with epsilon > 0, a batch of a single entry
    has batch variance 0 and the training call returns the shift, whatever
    the entry: the entry is its own mean, and 0 / sqrt(0 + epsilon) = 0. *)
Theorem bn_training_single_entry
    (self : BatchNormalization.t R) (X : ndarray R) (fs : list nat)
    (g b rm rv : ndarray R) :
  BatchNormalization.gamma self = Some g -> shape g = fs ->
  BatchNormalization.beta self = Some b -> shape b = fs ->
  BatchNormalization.running_mean self = Some rm -> shape rm = fs ->
  BatchNormalization.running_var self = Some rv -> shape rv = fs ->
  shape X = 1 :: fs ->
  (0 < BatchNormalization.epsilon self)%R ->
  exists out self',
    BatchNormalization.forward X true self = (self', Ok out) /\
    forall idx, in_range fs idx ->
      batch_var_at X 1 idx = 0%R /\ get out (0 :: idx) = get b idx.
Proof.
  intros Hg Hgs Hb Hbs Hrm Hrms Hrv Hrvs HX Heps.
  destruct (forward_training_spec X self HX Hg Hgs Hb Hbs Hrm Hrms Hrv Hrvs)
    as (out & rm' & rv' & Hfw & _ & _ & _ & Hog & _).
  exists out. eexists. split; [exact Hfw|].
  intros idx Hr.
  assert (Hm : batch_mean_at X 1 idx = get X (0 :: idx)).
  { unfold batch_mean_at, fsum; simpl. field. }
  assert (Hv : batch_var_at X 1 idx = 0%R).
  { unfold batch_var_at. rewrite Hm. unfold fsum; simpl. field. }
  split; [exact Hv|].
  rewrite Hog by (assumption || lia). rewrite Hm, Hv. unfold bn_formula; simpl.
  assert (Hs : sqrt (0 + BatchNormalization.epsilon self) <> 0%R).
  { apply Rgt_not_eq. apply sqrt_lt_R0. lra. }
  field. exact Hs.
Qed.


(** ** Local response normalisation, over the real numbers *)

Lemma Rpower_ge_1 (x y : R) : (1 <= x)%R -> (0 <= y)%R -> (1 <= Rpower x y)%R.
Proof.
  intros Hx Hy. unfold Rpower.
  assert (Hl : (0 <= ln x)%R).
  { destruct Hx as [Hx | <-]; [|rewrite ln_1; lra].
    rewrite <- ln_1. left. apply ln_increasing; lra. }
  assert (Hp : (0 <= y * ln x)%R) by nra.
  destruct Hp as [Hp | <-]; [|rewrite exp_0; lra].
  rewrite <- exp_0. left. apply exp_increasing. exact Hp.
Qed.

(** Over the real numbers, with bias > 0 and alpha >= 0 the result has the
    sign of the input and vanishes exactly where the input does; with
    bias >= 1 and beta >= 0 (as for the defaults 1.0 and 0.75) it is never
    larger in absolute value than the input. *)
Theorem lrn_forward_attenuates
    (self : custom_LocalResponseNormalization.t R) (X : ndarray R) (N C H0 W : nat) :
  shape X = [N; C; H0; W] ->
  (0 < custom_LocalResponseNormalization.bias self)%R ->
  (0 <= custom_LocalResponseNormalization.alpha self)%R ->
  exists Y, custom_LocalResponseNormalization.forward self X = Ok Y /\
    forall n c h w, n < N -> c < C -> h < H0 -> w < W ->
      (0 <= get Y [n; c; h; w] * get X [n; c; h; w])%R /\
      (get Y [n; c; h; w] = 0%R <-> get X [n; c; h; w] = 0%R) /\
      ((1 <= custom_LocalResponseNormalization.bias self)%R ->
       (0 <= custom_LocalResponseNormalization.beta self)%R ->
       (Rabs (get Y [n; c; h; w]) <= Rabs (get X [n; c; h; w]))%R).
Proof.
  intros Hs Hb Ha.
  destruct (forward_spec self X Hs) as (Y & HY & _ & Hg).
  exists Y. split; [exact HY|].
  intros n c h w Hn Hc Hh Hw. rewrite Hg by assumption.
  unfold lrn_formula. simpl.
  pose proof (sum_of_squares_nonneg X n h w
                (custom_LocalResponseNormalization.sliced_channels self C c)) as Hsum.
  set (x := get X [n; c; h; w]).
  set (scale := (custom_LocalResponseNormalization.bias self +
                 custom_LocalResponseNormalization.alpha self *
                 sum_of_squares X n h w
                   (custom_LocalResponseNormalization.sliced_channels self C c))%R).
  set (p := Rpower scale (custom_LocalResponseNormalization.beta self)).
  assert (Hp : (0 < p)%R) by (unfold p, Rpower; apply exp_pos).
  assert (Hi : (0 < / p)%R) by (apply Rinv_0_lt_compat; exact Hp).
  unfold Rdiv. split; [|split].
  - nra.
  - split.
    + intros E. destruct (Rmult_integral _ _ E) as [E' | E']; [exact E' | lra].
    + intros ->. ring.
  - intros Hb1 Hbeta.
    assert (Hsc : (1 <= scale)%R) by (unfold scale; nra).
    pose proof (Rpower_ge_1 Hsc Hbeta) as Hp1. fold p in Hp1.
    rewrite Rabs_mult, (Rabs_pos_eq (/ p)) by lra.
    assert (Hle : (/ p <= 1)%R).
    { rewrite <- Rinv_1. apply Rinv_le_contravar; lra. }
    pose proof (Rabs_pos x). nra.
Qed.

(** ** Windows, symmetries and repeated calls *)

(** The window the loop body sums over, for a radius that is not negative:
    it always contains the channel itself, never has more than
    2 * (r // 2) + 1 channels, and has exactly these, centred on the
    channel, when the channel is at least r // 2 away from both ends.  For
    the radius 5 of the notebook that is 2 channels on each side; an even
    radius r gives r + 1 channels. *)
Theorem lrn_window_size {F : Type} `{Scalar F}
    (self : custom_LocalResponseNormalization.t F) (C c : nat) :
  (0 <= custom_LocalResponseNormalization.depth_radius self)%Z -> c < C ->
  In c (custom_LocalResponseNormalization.sliced_channels self C c) /\
  length (custom_LocalResponseNormalization.sliced_channels self C c) <=
    2 * Z.to_nat (custom_LocalResponseNormalization.depth_radius self / 2) + 1 /\
  (Z.to_nat (custom_LocalResponseNormalization.depth_radius self / 2) <= c ->
   c + Z.to_nat (custom_LocalResponseNormalization.depth_radius self / 2) < C ->
   custom_LocalResponseNormalization.sliced_channels self C c =
   seq (c - Z.to_nat (custom_LocalResponseNormalization.depth_radius self / 2))
       (2 * Z.to_nat (custom_LocalResponseNormalization.depth_radius self / 2) + 1)).
Proof.
  intros Hr Hc. rewrite sliced_channels_window by assumption.
  assert (Hh : (0 <= custom_LocalResponseNormalization.depth_radius self / 2)%Z)
    by (apply Z.div_pos; lia).
  set (h := (custom_LocalResponseNormalization.depth_radius self / 2)%Z) in *.
  split; [|split].
  - apply channel_window_In. fold h. lia.
  - unfold channel_window. fold h. rewrite length_seq. lia.
  - intros Hlo Hhi. unfold channel_window. fold h. f_equal; lia.
Qed.

(** Over the real numbers [forward] is an odd function of its input: an
    input of opposite values gives the opposite results, the sums of
    squares being the same. *)
Theorem lrn_forward_odd
    (self : custom_LocalResponseNormalization.t R) (X X' : ndarray R) (N C H0 W : nat) :
  shape X = [N; C; H0; W] -> shape X' = [N; C; H0; W] ->
  (forall n c h w, n < N -> c < C -> h < H0 -> w < W ->
     get X' [n; c; h; w] = (- get X [n; c; h; w])%R) ->
  exists Y Y',
    custom_LocalResponseNormalization.forward self X = Ok Y /\
    custom_LocalResponseNormalization.forward self X' = Ok Y' /\
    forall n c h w, n < N -> c < C -> h < H0 -> w < W ->
      get Y' [n; c; h; w] = (- get Y [n; c; h; w])%R.
Proof.
  intros Hs Hs' Hneg.
  destruct (forward_spec self X Hs) as (Y & HY & _ & Hg).
  destruct (forward_spec self X' Hs') as (Y' & HY' & _ & Hg').
  exists Y, Y'. split; [exact HY|]. split; [exact HY'|].
  intros n c h w Hn Hc Hh Hw. rewrite Hg, Hg' by assumption.
  unfold lrn_formula, sum_of_squares. rewrite (Hneg n c h w Hn Hc Hh Hw).
  assert (E : map (fun i => fmul (get X' [n; i; h; w]) (get X' [n; i; h; w]))
                (custom_LocalResponseNormalization.sliced_channels self C c) =
              map (fun i => fmul (get X [n; i; h; w]) (get X [n; i; h; w]))
                (custom_LocalResponseNormalization.sliced_channels self C c)).
  { apply map_ext_in. intros i Hi. apply sliced_channels_below in Hi.
    rewrite (Hneg n i h w Hn Hi Hh Hw). simpl. ring. }
  rewrite E. simpl. unfold Rdiv. ring.
Qed.

(** Over the real numbers a training call does not see a constant added to
    the batch: two batches that differ by the same constant in every entry
    give the same output, the constant moving the batch mean and leaving
    the deviations from it, and so the batch variance, as they were. *)
Theorem bn_training_shift_invariant
    (self : BatchNormalization.t R) (X X' : ndarray R) (N : nat) (fs : list nat)
    (g b rm rv : ndarray R) (k : R) :
  BatchNormalization.gamma self = Some g -> shape g = fs ->
  BatchNormalization.beta self = Some b -> shape b = fs ->
  BatchNormalization.running_mean self = Some rm -> shape rm = fs ->
  BatchNormalization.running_var self = Some rv -> shape rv = fs ->
  shape X = N :: fs -> shape X' = N :: fs ->
  (forall i idx, i < N -> in_range fs idx ->
     get X' (i :: idx) = (get X (i :: idx) + k)%R) ->
  exists out out',
    snd (BatchNormalization.forward X true self) = Ok out /\
    snd (BatchNormalization.forward X' true self) = Ok out' /\
    forall i idx, i < N -> in_range fs idx ->
      get out' (i :: idx) = get out (i :: idx) /\
      batch_mean_at X' N idx = (batch_mean_at X N idx + k)%R /\
      batch_var_at X' N idx = batch_var_at X N idx.
Proof.
  intros Hg Hgs Hb Hbs Hrm Hrms Hrv Hrvs HX HX' Hshift.
  destruct (forward_training_spec X self HX Hg Hgs Hb Hbs Hrm Hrms Hrv Hrvs)
    as (out & rm1 & rv1 & Hfw & _ & _ & _ & Hog & _).
  destruct (forward_training_spec X' self HX' Hg Hgs Hb Hbs Hrm Hrms Hrv Hrvs)
    as (out' & rm2 & rv2 & Hfw' & _ & _ & _ & Hog' & _).
  exists out, out'. rewrite Hfw, Hfw'. split; [reflexivity|]. split; [reflexivity|].
  intros i idx Hi Hr.
  assert (HN : INR N <> 0%R) by (apply not_0_INR; lia).
  assert (Hm : batch_mean_at X' N idx = (batch_mean_at X N idx + k)%R).
  { unfold batch_mean_at.
    assert (E : map (fun j => get X' (j :: idx)) (seq 0 N) =
                map (fun j => (1 * get X (j :: idx) + k)%R) (seq 0 N)).
    { apply map_ext_in. intros j Hj. apply in_seq in Hj.
      rewrite Hshift by (assumption || lia). ring. }
    rewrite E, fsum_map_affine, length_seq. simpl. field. exact HN. }
  assert (Hv : batch_var_at X' N idx = batch_var_at X N idx).
  { unfold batch_var_at. rewrite Hm. f_equal. f_equal.
    apply map_ext_in. intros j Hj. apply in_seq in Hj.
    rewrite Hshift by (assumption || lia). simpl. ring. }
  split; [|split; assumption].
  rewrite Hog, Hog' by assumption. rewrite Hm, Hv, Hshift by assumption.
  unfold bn_formula. simpl. f_equal. f_equal. f_equal. ring.
Qed.


(** * The further properties at concrete inputs *)

Lemma lrn_forward_four_axes_witness :
  (exists Y, custom_LocalResponseNormalization.forward lrn_default X_1311 = Ok Y /\
             shape Y = shape X_1311) /\
  custom_LocalResponseNormalization.forward lrn_default X_21 = Err ValueError.
Proof.
  split.
  - apply (proj1 (lrn_forward_four_axes lrn_default X_1311)). reflexivity.
  - apply (proj2 (lrn_forward_four_axes lrn_default X_21)). discriminate.
Defined.

Lemma lrn_forward_radius_below_two_witness :
  exists Y, custom_LocalResponseNormalization.forward lrn_radius_one X_1311 = Ok Y /\
    forall n c h w, n < 1 -> c < 3 -> h < 1 -> w < 1 ->
      get Y [n; c; h; w] =
      (get X_1311 [n; c; h; w] /
       Rpower (1 + 1 / 10000 * (0 + get X_1311 [n; c; h; w] * get X_1311 [n; c; h; w]))
              (3 / 4))%R.
Proof.
  exact (@lrn_forward_radius_below_two R _ lrn_radius_one X_1311 1 3 1 1
           ltac:(simpl; lia) eq_refl).
Defined.

Lemma lrn_forward_radius_covers_channels_witness :
  exists Y, custom_LocalResponseNormalization.forward lrn_default X_1311 = Ok Y /\
    forall n c h w, n < 1 -> c < 3 -> h < 1 -> w < 1 ->
      get Y [n; c; h; w] =
      lrn_formula 1%R (1 / 10000)%R (3 / 4)%R X_1311 n c h w [0; 1; 2].
Proof.
  exact (@lrn_forward_radius_covers_channels R _ lrn_default X_1311 1 3 1 1
           ltac:(simpl; lia) eq_refl).
Defined.

Lemma lrn_forward_local_witness :
  exists Y Y',
    custom_LocalResponseNormalization.forward lrn_default X_1311 = Ok Y /\
    custom_LocalResponseNormalization.forward lrn_default X_2311 = Ok Y' /\
    forall c, c < 3 -> get Y [0; c; 0; 0] = get Y' [1; c; 0; 0].
Proof.
  apply (@lrn_forward_local R _ lrn_default X_1311 X_2311 1 2 3 1 1 0 1 0 0);
    try reflexivity; lia.
Defined.

Lemma bn_training_without_batch_axis_witness :
  BatchNormalization.forward X_scalar true bn_new =
    (BatchNormalization.initialize_params [] bn_new, Err AxisError).
Proof.
  exact (@bn_training_without_batch_axis R _ bn_new X_scalar eq_refl).
Defined.

Lemma bn_inference_first_witness :
  exists out,
    BatchNormalization.forward X_21 false bn_new = (bn_one, Ok out) /\
    shape out = [2; 1] /\
    forall i idx, i < 2 -> in_range [1] idx ->
      get out (i :: idx) =
      bn_formula 1%R 0%R (get X_21 (i :: idx)) 0%R 1%R (1 / 100000)%R.
Proof.
  exact (@bn_inference_first R _ bn_new X_21 2 [1] eq_refl eq_refl eq_refl).
Defined.

Lemma bn_update_params_then_forward_witness :
  (exists out self',
      BatchNormalization.forward X_21 true
        (BatchNormalization.update_params g_two s_three bn_one) = (self', Ok out) /\
      forall i idx, i < 2 -> in_range [1] idx ->
        get out (i :: idx) =
        bn_formula (get g_two idx) (get s_three idx) (get X_21 (i :: idx))
          (batch_mean_at X_21 2 idx) (batch_var_at X_21 2 idx) (1 / 100000)%R) /\
  (exists out,
      BatchNormalization.forward X_21 false
        (BatchNormalization.update_params g_two s_three bn_one) =
        (BatchNormalization.update_params g_two s_three bn_one, Ok out) /\
      forall i idx, i < 2 -> in_range [1] idx ->
        get out (i :: idx) =
        bn_formula (get g_two idx) (get s_three idx) (get X_21 (i :: idx))
          (get (np_zeros [1%nat]) idx) (get (np_ones [1%nat]) idx) (1 / 100000)%R).
Proof.
  exact (@bn_update_params_then_forward R _ bn_one g_two s_three X_21 2 [1]
           (np_zeros [1%nat]) (np_ones [1%nat])
           (initialized_initialize_params [1] bn_new)
           eq_refl eq_refl eq_refl eq_refl eq_refl).
Defined.

Lemma bn_training_then_inference_witness :
  exists out',
    snd (BatchNormalization.forward X_21 false
           (fst (BatchNormalization.forward X_21 true bn_one))) = Ok out' /\
    forall i idx, i < 2 -> in_range [1] idx ->
      get out' (i :: idx) =
      bn_formula (get (np_ones [1%nat]) idx) (get (np_zeros [1%nat]) idx) (get X_21 (i :: idx))
        (9 / 10 * get (np_zeros [1%nat]) idx + (1 - 9 / 10) * batch_mean_at X_21 2 idx)%R
        (9 / 10 * get (np_ones [1%nat]) idx + (1 - 9 / 10) * batch_var_at X_21 2 idx)%R
        (1 / 100000)%R.
Proof.
  exact (@bn_training_then_inference R _ bn_one X_21 X_21 2 2 [1]
           (np_ones [1%nat]) (np_zeros [1%nat]) (np_zeros [1%nat]) (np_ones [1%nat])
           eq_refl eq_refl eq_refl eq_refl eq_refl eq_refl eq_refl eq_refl
           eq_refl eq_refl).
Defined.

Lemma bn_training_error_keeps_statistics_witness :
  exists rm' rv',
    BatchNormalization.forward X_23 true
      (BatchNormalization.update_params g_five (np_zeros [3%nat]) bn_three) =
      (BatchNormalization.mk (1 / 100000)%R (9 / 10)%R (Some g_five)
         (Some (np_zeros [3%nat])) (Some rm') (Some rv'),
       Err ValueError) /\
    forall idx, in_range [3] idx ->
      get rm' idx =
        (9 / 10 * get (np_zeros [3%nat]) idx + (1 - 9 / 10) * batch_mean_at X_23 2 idx)%R /\
      get rv' idx =
        (9 / 10 * get (np_ones [3%nat]) idx + (1 - 9 / 10) * batch_var_at X_23 2 idx)%R.
Proof.
  exact (@bn_training_error_keeps_statistics R _ bn_three g_five (np_zeros [3%nat]) X_23 2 [3]
           (np_zeros [3%nat]) (np_ones [3%nat]) eq_refl eq_refl eq_refl eq_refl eq_refl eq_refl).
Defined.

Lemma bn_consistent_shapes_never_fail_witness :
  BatchNormalization.initialized [1]
    (BatchNormalization.run bn_new
       [BatchNormalization.Forward X_21 true;
        BatchNormalization.UpdateParams g_two s_three;
        BatchNormalization.Forward X_21 false]) /\
  exists out self',
    BatchNormalization.forward X_21 true
      (BatchNormalization.run bn_new
         [BatchNormalization.Forward X_21 true;
          BatchNormalization.UpdateParams g_two s_three;
          BatchNormalization.Forward X_21 false]) = (self', Ok out) /\
    shape out = shape X_21.
Proof.
  apply (@bn_consistent_shapes_never_fail R _ bn_new X_21 true 2 [1]
           [BatchNormalization.UpdateParams g_two s_three;
            BatchNormalization.Forward X_21 false] X_21 true 2).
  - reflexivity.
  - reflexivity.
  - reflexivity.
  - repeat constructor. exists 2. reflexivity.
  - reflexivity.
Defined.

Lemma bn_training_output_statistics_witness :
  exists out self',
    BatchNormalization.forward X_21 true bn_one = (self', Ok out) /\
    forall idx, in_range [1] idx ->
      batch_mean_at out 2 idx = get (np_zeros [1%nat]) idx /\
      batch_var_at out 2 idx =
        (get (np_ones [1%nat]) idx * get (np_ones [1%nat]) idx *
         (batch_var_at X_21 2 idx / (batch_var_at X_21 2 idx + 1 / 100000)))%R.
Proof.
  exact (@bn_training_output_statistics bn_one X_21 2 [1]
           (np_ones [1%nat]) (np_zeros [1%nat]) (np_zeros [1%nat]) (np_ones [1%nat])
           eq_refl eq_refl eq_refl eq_refl eq_refl eq_refl eq_refl eq_refl eq_refl
           ltac:(lia) ltac:(simpl; lra)).
Defined.

Lemma bn_training_single_entry_witness :
  exists out self',
    BatchNormalization.forward X_13 true bn_three = (self', Ok out) /\
    forall idx, in_range [3] idx ->
      batch_var_at X_13 1 idx = 0%R /\ get out (0 :: idx) = get (np_zeros [3%nat]) idx.
Proof.
  exact (@bn_training_single_entry bn_three X_13 [3]
           (np_ones [3%nat]) (np_zeros [3%nat]) (np_zeros [3%nat]) (np_ones [3%nat])
           eq_refl eq_refl eq_refl eq_refl eq_refl eq_refl eq_refl eq_refl eq_refl
           ltac:(simpl; lra)).
Defined.


Lemma lrn_forward_attenuates_witness :
  exists Y, custom_LocalResponseNormalization.forward lrn_default X_1311 = Ok Y /\
    forall n c h w, n < 1 -> c < 3 -> h < 1 -> w < 1 ->
      (0 <= get Y [n; c; h; w] * get X_1311 [n; c; h; w])%R /\
      (get Y [n; c; h; w] = 0%R <-> get X_1311 [n; c; h; w] = 0%R) /\
      ((1 <= 1)%R -> (0 <= 3 / 4)%R ->
       (Rabs (get Y [n; c; h; w]) <= Rabs (get X_1311 [n; c; h; w]))%R).
Proof.
  exact (@lrn_forward_attenuates lrn_default X_1311 1 3 1 1
           eq_refl ltac:(simpl; lra) ltac:(simpl; lra)).
Defined.

Lemma lrn_window_size_witness :
  In 2 (custom_LocalResponseNormalization.sliced_channels lrn_default 5 2) /\
  length (custom_LocalResponseNormalization.sliced_channels lrn_default 5 2) <= 5 /\
  (2 <= 2 -> 2 + 2 < 5 ->
   custom_LocalResponseNormalization.sliced_channels lrn_default 5 2 = [0; 1; 2; 3; 4]).
Proof.
  exact (@lrn_window_size R _ lrn_default 5 2 ltac:(simpl; lia) ltac:(lia)).
Defined.

Lemma lrn_forward_odd_witness :
  exists Y Y',
    custom_LocalResponseNormalization.forward lrn_default X_1311 = Ok Y /\
    custom_LocalResponseNormalization.forward lrn_default X_1311_opposite = Ok Y' /\
    forall n c h w, n < 1 -> c < 3 -> h < 1 -> w < 1 ->
      get Y' [n; c; h; w] = (- get Y [n; c; h; w])%R.
Proof.
  apply (@lrn_forward_odd lrn_default X_1311 X_1311_opposite 1 3 1 1).
  - reflexivity.
  - reflexivity.
  - intros n c h w Hn Hc Hh Hw.
    assert (n = 0) by lia. assert (h = 0) by lia. assert (w = 0) by lia. subst.
    destruct c as [|[|[|c]]]; [reflexivity | reflexivity | reflexivity | lia].
Defined.

Lemma bn_training_shift_invariant_witness :
  exists out out',
    snd (BatchNormalization.forward X_21 true bn_one) = Ok out /\
    snd (BatchNormalization.forward X_21_shifted true bn_one) = Ok out' /\
    forall i idx, i < 2 -> in_range [1] idx ->
      get out' (i :: idx) = get out (i :: idx) /\
      batch_mean_at X_21_shifted 2 idx = (batch_mean_at X_21 2 idx + 10)%R /\
      batch_var_at X_21_shifted 2 idx = batch_var_at X_21 2 idx.
Proof.
  apply (@bn_training_shift_invariant bn_one X_21 X_21_shifted 2 [1]
           (np_ones [1]) (np_zeros [1]) (np_zeros [1]) (np_ones [1]) 10%R);
    try reflexivity.
  intros i idx Hi Hr.
  destruct idx as [|j [|? ?]]; simpl in Hr; try tauto.
  assert (j = 0) by lia. subst j.
  destruct i as [|[|i]]; [| | lia]; unfold get; simpl; lra.
Defined.


Lemma bn_forward_never_reinitialises_witness :
  BatchNormalization.gamma
    (BatchNormalization.run bn_one
       [BatchNormalization.Forward X_21 true;
        BatchNormalization.UpdateParams g_two s_three;
        BatchNormalization.Forward X_21 false]) = Some g_two /\
  BatchNormalization.beta
    (BatchNormalization.run bn_one
       [BatchNormalization.Forward X_21 true;
        BatchNormalization.UpdateParams g_two s_three;
        BatchNormalization.Forward X_21 false]) = Some s_three /\
  kept_or_averaged
    (BatchNormalization.momentum
       (BatchNormalization.run bn_one
          [BatchNormalization.Forward X_21 true;
           BatchNormalization.UpdateParams g_two s_three;
           BatchNormalization.Forward X_21 false]))
    (BatchNormalization.running_mean
       (BatchNormalization.run bn_one
          [BatchNormalization.Forward X_21 true;
           BatchNormalization.UpdateParams g_two s_three;
           BatchNormalization.Forward X_21 false]))
    (BatchNormalization.running_mean
       (fst (BatchNormalization.forward X_21 true
               (BatchNormalization.run bn_one
                  [BatchNormalization.Forward X_21 true;
                   BatchNormalization.UpdateParams g_two s_three;
                   BatchNormalization.Forward X_21 false]))))
    (np_mean0 X_21) /\
  kept_or_averaged
    (BatchNormalization.momentum
       (BatchNormalization.run bn_one
          [BatchNormalization.Forward X_21 true;
           BatchNormalization.UpdateParams g_two s_three;
           BatchNormalization.Forward X_21 false]))
    (BatchNormalization.running_var
       (BatchNormalization.run bn_one
          [BatchNormalization.Forward X_21 true;
           BatchNormalization.UpdateParams g_two s_three;
           BatchNormalization.Forward X_21 false]))
    (BatchNormalization.running_var
       (fst (BatchNormalization.forward X_21 true
               (BatchNormalization.run bn_one
                  [BatchNormalization.Forward X_21 true;
                   BatchNormalization.UpdateParams g_two s_three;
                   BatchNormalization.Forward X_21 false]))))
    (np_var0 X_21).
Proof.
  exact (@bn_forward_never_reinitialises R _ bn_one (np_ones [1]) (np_zeros [1])
           [BatchNormalization.Forward X_21 true;
            BatchNormalization.UpdateParams g_two s_three;
            BatchNormalization.Forward X_21 false] X_21 true eq_refl eq_refl).
Defined.
